(** * Product importer: the import pipeline and the product CRUD operations

    A shallow embedding of [app/services/product_service.py] (class
    [ProductService]) together with the parts of [app/models/database.py]
    and [app/api/products.py] it relies on, and the properties the
    specification states about them.

    Conventions of the embedding.
    - Text is [string]; the model covers ASCII text.  [lower] and [strip]
      act on the ASCII letters and the ASCII white space that Python's
      [str.lower] and [str.strip] act on; other characters are left alone.
    - [pd.read_csv] is not modelled: the importer receives its outcome, an
      exception or a frame.  The cells of a frame are kept as text; the type
      [pd.read_csv] gave the column [sku] comes with the frame, since the
      accessor [.str] raises on a column that is not of text.
    - The Product table is the list of its rows in insertion order.  The
      column [created_at] is filled by the database clock and is left out.
    - The worker's session is the pair of the committed table [db] and the
      rows it has inserted but not yet committed, [txn].  The sessions of
      [update_product], [delete_product] and [delete_all_products] carry
      their unit of work: what is marked reaches the table with the flush
      of [db.commit()].
    - Other threads are oracles: what [cancel_flags.get(task_id, False)]
      answers at the k-th batch boundary, and which rows other writers
      commit while the k-th batch is being prepared.  The status text that
      the cancel request writes into the stored record is not modelled.
    - [published] is the log of the records the worker has written to
      [progress_store], oldest first; the code keeps no such log. *)

From Stdlib Require Import ZArith List Lia Ascii String Sorted.
From stdpp Require Import base strings gmap list pretty.

Open Scope string_scope.
Open Scope list_scope.

#[local] Set Warnings "-clear-no-such-hyp".

(** ** Text *)

Module Text.

(** White space as [str.strip] sees it, in the ASCII range: TAB, LF, VT, FF,
    CR, the four separators FS, GS, RS, US and the blank. *)
Definition is_space (c : ascii) : bool :=
  let n := N_of_ascii c in
  ((9 <=? n) && (n <=? 13) || (28 <=? n) && (n <=? 32))%N.

Definition lower_char (c : ascii) : ascii :=
  let n := N_of_ascii c in
  if ((65 <=? n) && (n <=? 90))%N then ascii_of_N (n + 32) else c.

(** [str.lower()], also SQL's [LOWER]. *)
Fixpoint lower (s : string) : string :=
  match s with
  | EmptyString => EmptyString
  | String c r => String (lower_char c) (lower r)
  end.

Fixpoint lstrip (s : string) : string :=
  match s with
  | EmptyString => EmptyString
  | String c r => if is_space c then lstrip r else s
  end.

Fixpoint rstrip (s : string) : string :=
  match s with
  | EmptyString => EmptyString
  | String c r =>
      match rstrip r with
      | EmptyString => if is_space c then EmptyString else String c EmptyString
      | r' => String c r'
      end
  end.

(** [str.strip()]. *)
Definition strip (s : string) : string := rstrip (lstrip s).

(** SQL [LIKE]: [%] stands for any run of characters, [_] for any one. *)
Fixpoint like (pat : string) : string -> bool :=
  match pat with
  | EmptyString => fun s => match s with EmptyString => true | _ => false end
  | String p pat' =>
      if Ascii.eqb p "%" then
        fix star (s : string) : bool :=
          like pat' s || match s with
                         | EmptyString => false
                         | String _ s' => star s'
                         end
      else if Ascii.eqb p "_" then
        fun s => match s with
                 | EmptyString => false
                 | String _ s' => like pat' s'
                 end
      else
        fun s => match s with
                 | EmptyString => false
                 | String c s' => Ascii.eqb p c && like pat' s'
                 end
  end.

(** [column.ilike(pattern)], which SQLAlchemy renders as
    [lower(column) LIKE lower(pattern)]. *)
Definition ilike (column pattern : string) : bool :=
  like (lower pattern) (lower column).

End Text.

Import Text.

(** ** Data *)

(** A row of the table [products] (class [Product]). *)
Record Product := mkProduct {
  p_id : Z;
  p_name : string;
  p_sku : string;
  p_description : string;
  p_active : bool
}.

(** The parameters of one [INSERT INTO products]: the dict appended to
    [new_products]. *)
Record NewProduct := mkNewProduct {
  np_name : string;
  np_sku : string;
  np_description : string;
  np_active : bool
}.

(** One line of the parsed file: the three cells the importer reads.  A cell
    of a column the frame does not have is never looked at. *)
Record Row := mkRow {
  row_name : string;
  row_sku : string;
  row_description : string
}.

(** The type [pd.read_csv] gives a column: [object] for a column of text,
    a numeric or boolean type when every cell of the column reads as a
    number or as a truth value. *)
Inductive Dtype :=
| Object
| Int64
| Float64
| Boolean.

(** A frame: its columns, its lines, and the type of its column [sku]
    (which matters only when the frame has that column). *)
Record DataFrame := mkFrame {
  columns : list string;
  rows : list Row;
  sku_dtype : Dtype
}.

(** What [pd.read_csv(file_path)] does: raise, or give a frame. *)
Inductive CsvFile :=
| Unreadable (msg : string)
| Parsed (df : DataFrame).

(** A value of [progress_store]: the dict with the keys [progress],
    [status], [completed] and, in terminal records, one of [imported],
    [error], [cancelled] ([None] when the key is absent). *)
Record JobRecord := mkJob {
  progress : Z;
  status : string;
  completed : bool;
  imported : option nat;
  error : option bool;
  cancelled : option bool
}.

(** The exceptions.  [KeyErrorIndex labels] is the [KeyError] that
    [drop_duplicates] raises, whose argument is the pandas [Index] of the
    missing labels and not a string. *)
Inductive Exn :=
| ReadError (msg : string)
| KeyError (key : string)
| KeyErrorIndex (labels : list string)
| AttributeError (msg : string)
| IntegrityError (what : string)
| ValueError (msg : string).

(** [repr] of a list of labels: ['a', 'b']. *)
Fixpoint repr_labels (labels : list string) : string :=
  match labels with
  | [] => ""
  | [l] => "'" +:+ l +:+ "'"
  | l :: more => "'" +:+ l +:+ "', " +:+ repr_labels more
  end.

(** [str(e)].  The text SQLAlchemy gives an [IntegrityError] also quotes the
    statement and its parameters; it is cut here to the message of the
    driver, and no statement below depends on it. *)
Definition str_exn (e : Exn) : string :=
  match e with
  | ReadError msg => msg
  | KeyError key => "'" +:+ key +:+ "'"
  | KeyErrorIndex labels =>
      "Index([" +:+ repr_labels labels +:+ "], dtype='object')"
  | AttributeError msg => msg
  | IntegrityError what => "UNIQUE constraint failed: " +:+ what
  | ValueError msg => msg
  end.

(** The dict [import_products_from_csv] returns; its [status] is always
    ["completed"]. *)
Record ImportResult := mkResult {
  res_imported : nat;
  res_total_processed : nat
}.

#[global] Instance Product_eq_dec : EqDecision Product.
Proof. solve_decision. Defined.
#[global] Instance JobRecord_eq_dec : EqDecision JobRecord.
Proof. solve_decision. Defined.

(** ** The world the worker runs in *)

Record World := mkWorld {
  db : list Product;
  txn : list Product;
  progress_store : gmap string JobRecord;
  published : list JobRecord
}.

(** What the other threads do to one job: [cancel_flag k] is what
    [cancel_flags.get(task_id, False)] answers when batch number [k] is due,
    [other_commits k] are the rows other writers commit between the job's
    last commit and the bulk insert of batch number [k]. *)
Record Env := mkEnv {
  cancel_flag : nat -> bool;
  other_commits : nat -> list NewProduct
}.

(** No cancellation request and no other writer. *)
Definition quiet : Env := mkEnv (fun _ => false) (fun _ => []).

(** ** Computations that may raise *)

Inductive Result (A : Type) :=
| Return (a : A)
| Raise (e : Exn).
Arguments Return {A} a.
Arguments Raise {A} e.

Definition M (A : Type) : Type := World -> Result A * World.

Definition ret {A} (a : A) : M A := fun w => (Return a, w).
Definition raise {A} (e : Exn) : M A := fun w => (Raise e, w).
Definition bind {A B} (m : M A) (k : A -> M B) : M B :=
  fun w => match m w with
           | (Return a, w') => k a w'
           | (Raise e, w') => (Raise e, w')
           end.
Definition lift {A} (r : Result A) : M A := fun w => (r, w).

Definition rbind {A B} (r : Result A) (k : A -> Result B) : Result B :=
  match r with
  | Return a => k a
  | Raise e => Raise e
  end.

Declare Scope imp_scope.
Delimit Scope imp_scope with imp.
Notation "x <- m ;; k" := (bind m (fun x => k))
  (at level 100, m at next level, right associativity) : imp_scope.
Notation "m ;; k" := (bind m (fun _ => k))
  (at level 100, right associativity) : imp_scope.
Notation "x <~ r ;; k" := (rbind r (fun x => k))
  (at level 100, r at next level, right associativity) : imp_scope.
Open Scope imp_scope.

(** ** The database session *)

Definition skus (t : list Product) : list string := p_sku <$> t.

(** The rowid SQLite gives the next row: one more than the largest. *)
Definition next_id (t : list Product) : Z :=
  (1 + foldr Z.max 0 (p_id <$> t))%Z.

Definition stored (i : Z) (np : NewProduct) : Product :=
  mkProduct i (np_name np) (np_sku np) (np_description np) (np_active np).

(** One [INSERT]; the column [sku] is [unique=True]. *)
Definition insert_one (np : NewProduct) : M unit := fun w =>
  let visible := db w ++ txn w in
  if bool_decide (np_sku np ∈ skus visible)
  then (Raise (IntegrityError "products.sku"), w)
  else (Return tt,
        mkWorld (db w) (txn w ++ [stored (next_id visible) np])
                (progress_store w) (published w)).

(** [db_session.execute(text("INSERT ..."), new_products)]. *)
Fixpoint execute_insert (new_products : list NewProduct) : M unit :=
  match new_products with
  | [] => ret tt
  | np :: more => insert_one np ;; execute_insert more
  end.

(** [db_session.commit()]. *)
Definition commit : M unit := fun w =>
  (Return tt, mkWorld (db w ++ txn w) [] (progress_store w) (published w)).

(** [db_session.rollback()] and [db_session.close()]: what is not committed
    is gone. *)
Definition rollback (w : World) : World :=
  mkWorld (db w) [] (progress_store w) (published w).
Definition close (w : World) : World :=
  mkWorld (db w) [] (progress_store w) (published w).

(** Another writer commits its rows; a row whose SKU is taken is refused. *)
Definition commit_other (t : list Product) (np : NewProduct) : list Product :=
  if bool_decide (np_sku np ∈ skus t) then t else t ++ [stored (next_id t) np].

Definition others_commit (nps : list NewProduct) : M unit := fun w =>
  (Return tt,
   mkWorld (foldl commit_other (db w) nps) (txn w)
           (progress_store w) (published w)).

(** [progress_store[task_id] = record], by the worker; [published] keeps the
    records in the order they were written. *)
Definition publish (task_id : string) (r : JobRecord) : M unit := fun w =>
  (Return tt,
   mkWorld (db w) (txn w) (<[task_id := r]> (progress_store w))
           (published w ++ [r])).

(** [db.query(Product).filter(cond).first()]. *)
Definition query_first (cond : Product -> bool) : M (option Product) := fun w =>
  (Return (find cond (db w ++ txn w)), w).

(** [db.add(product)] followed by the flush: the row gets its id. *)
Definition add (np : NewProduct) : M Product := fun w =>
  match insert_one np w with
  | (Return _, w') => (Return (stored (next_id (db w ++ txn w)) np), w')
  | (Raise e, w') => (Raise e, w')
  end.

(** ** The unit of work of a session *)

(** [SessionLocal] is [sessionmaker(autocommit=False, autoflush=False)]:
    [db.delete(obj)] and an assignment to an attribute of a loaded object
    only mark the object in the session, and it is the flush inside
    [db.commit()] that sends the [UPDATE] and the [DELETE].  A bulk
    [query.delete()] is sent at once, inside the open transaction.  Nothing
    of this is in the committed table before the commit. *)
Module UnitOfWork.

(** [table] is the table as the open transaction has it; [dirty] pairs
    every changed object, as it was loaded, with what it is now; [deleted]
    are the objects marked for deletion. *)
Record Session := mkSession {
  world : World;
  table : list Product;
  dirty : list (Product * Product);
  deleted : list Product
}.

Definition S (A : Type) : Type := Session -> Result A * Session.

Definition ret {A} (a : A) : S A := fun s => (Return a, s).
Definition raise {A} (e : Exn) : S A := fun s => (Raise e, s).
Definition bind {A B} (m : S A) (k : A -> S B) : S B :=
  fun s => match m s with
           | (Return a, s') => k a s'
           | (Raise e, s') => (Raise e, s')
           end.

(** [db.query(Product).filter(cond).first()] and [.count()]: without
    autoflush they read the table and not the marks. *)
Definition first (cond : Product -> bool) : S (option Product) := fun s =>
  (Return (find cond (table s)), s).
Definition count (cond : Product -> bool) : S nat := fun s =>
  (Return (length (filter (fun p => cond p) (table s))), s).

(** [db.delete(product)]. *)
Definition delete (product : Product) : S unit := fun s =>
  (Return tt,
   mkSession (world s) (table s) (dirty s) (deleted s ++ [product])).

(** The assignments to the attributes of [product], which make it
    [changed]. *)
Definition set_attributes (product changed : Product) : S unit := fun s =>
  (Return tt,
   mkSession (world s) (table s) (dirty s ++ [(product, changed)])
             (deleted s)).

(** [db.query(Product).delete()]: [DELETE FROM products]. *)
Definition delete_query : S unit := fun s =>
  (Return tt, mkSession (world s) [] (dirty s) (deleted s)).

(** [UPDATE products SET ... WHERE id = product.id].  The unique index on
    [sku] is consulted when the SKU changes. *)
Definition sql_update (product changed : Product) (t : list Product)
  : Result (list Product) :=
  let others := filter (fun q => p_id q ≠ p_id product) t in
  if bool_decide (p_sku changed ≠ p_sku product)
     && bool_decide (p_sku changed ∈ skus others)
  then Raise (IntegrityError "products.sku")
  else
    Return ((fun q => if bool_decide (p_id q = p_id product)
                      then changed else q) <$> t).

(** [DELETE FROM products WHERE id = product.id]. *)
Definition sql_delete (product : Product) (t : list Product) : list Product :=
  filter (fun q => p_id q ≠ p_id product) t.

Fixpoint flush_dirty (changes : list (Product * Product)) (t : list Product)
  : Result (list Product) :=
  match changes with
  | [] => Return t
  | (product, changed) :: more =>
      t' <~ sql_update product changed t ;;
      flush_dirty more t'
  end.

(** The flush: the updates, then the deletions. *)
Definition flush (s : Session) : Result (list Product) :=
  t <~ flush_dirty (dirty s) (table s) ;;
  Return (foldl (fun t' product => sql_delete product t') t (deleted s)).

(** [db.commit()]: the flush, then the commit of the transaction.  When the
    flush is refused the transaction is rolled back and the exception leaves
    [commit]. *)
Definition commit : S unit := fun s =>
  let w := world s in
  match flush s with
  | Return t =>
      (Return tt,
       mkSession (mkWorld t [] (progress_store w) (published w)) t [] [])
  | Raise e => (Raise e, mkSession (rollback w) (db w) [] [])
  end.

(** A call on a session in which nothing is marked.  What the call leaves is
    the world as committed: a mark that no commit has flushed is not in
    it. *)
Definition in_session {A} (body : S A) : M A := fun w =>
  let '(r, s) := body (mkSession w (db w ++ txn w) [] []) in
  (r, world s).

End UnitOfWork.

Declare Scope uow_scope.
Delimit Scope uow_scope with uow.
Notation "x <- m ;; k" := (UnitOfWork.bind m (fun x => k))
  (at level 100, m at next level, right associativity) : uow_scope.
Notation "m ;; k" := (UnitOfWork.bind m (fun _ => k))
  (at level 100, right associativity) : uow_scope.

(** ** Pandas *)

(** [row[key]] on a row of a frame with the columns [cols]. *)
Definition getitem (cols : list string) (key : string) (cell : string)
  : Result string :=
  if bool_decide (key ∈ cols) then Return cell else Raise (KeyError key).

(** [row.get(key, default)]. *)
Definition get (cols : list string) (key : string) (cell default : string)
  : string :=
  if bool_decide (key ∈ cols) then cell else default.

(** [drop_duplicates(subset=['sku'], keep='last')]: a row stays when no later
    row has the same cell in the column [sku]. *)
Fixpoint drop_duplicates_last (l : list Row) : list Row :=
  match l with
  | [] => []
  | r :: later =>
      if bool_decide (row_sku r ∈ (row_sku <$> later))
      then drop_duplicates_last later
      else r :: drop_duplicates_last later
  end.

(** [df['sku'] = df['sku'].str.strip().str.lower()], on one row. *)
Definition normalize_sku (r : Row) : Row :=
  mkRow (row_name r) (lower (strip (row_sku r))) (row_description r).

(** [df.iloc[i:j]]. *)
Definition iloc (l : list Row) (i j : nat) : list Row :=
  take (j - i) (drop i l).

(** [range(0, n, step)] for a positive [step]. *)
Definition range_step (n step : nat) : list nat :=
  (fun j => j * step)%nat <$> seq 0 ((n + step - 1) / step).

(** ** ProductService: the import *)

Definition batch_size : nat := 5000.

(** [df['sku'].str] on a column that is not of text. *)
Definition not_text : Exn :=
  AttributeError "Can only use .str accessor with string values!".

(** [drop_duplicates(subset=['sku'], keep='last')] raises when the frame has
    no column [sku]; the accessor [.str] raises when the column is not of
    text; the column that [.str.lower()] gives is of text. *)
Definition _preprocess_dataframe (df : DataFrame) : Result DataFrame :=
  if bool_decide ("sku" ∈ columns df)
  then
    match sku_dtype df with
    | Object =>
        Return (mkFrame (columns df)
                        (normalize_sku <$> drop_duplicates_last (rows df))
                        Object)
    | _ => Raise not_text
    end
  else Raise (KeyErrorIndex ["sku"]).

(** [SELECT LOWER(sku) FROM products], collected into a set. *)
Definition _get_existing_skus : M (gset string) := fun w =>
  (Return (list_to_set (lower <$> skus (db w ++ txn w))), w).

(** The body of [for _, row in batch.iterrows()]: the rows to insert, the
    grown set of known SKUs and the grown count. *)
Fixpoint prepare_batch (cols : list string) (batch : list Row)
    (existing_skus : gset string) (count : nat)
  : Result (list NewProduct * gset string * nat) :=
  match batch with
  | [] => Return ([], existing_skus, count)
  | row :: more =>
      s <~ getitem cols "sku" (row_sku row) ;;
      let sku := lower s in
      if bool_decide (sku ∈ existing_skus)
      then prepare_batch cols more existing_skus count
      else
        name <~ getitem cols "name" (row_name row) ;;
        let description := get cols "description" (row_description row) "" in
        rest <~ prepare_batch cols more ({[sku]} ∪ existing_skus) (S count) ;;
        let '(new_products, existing', count') := rest in
        Return (mkNewProduct name sku description true :: new_products,
                existing', count')
  end.

Definition loading_record : JobRecord :=
  mkJob 5 "Loading CSV..." false None None None.
Definition preprocessing_record : JobRecord :=
  mkJob 10 "Preprocessing data..." false None None None.
Definition cancelled_record : JobRecord :=
  mkJob 0 "Cancelled by user" true None None (Some true).
Definition completed_record (count : nat) : JobRecord :=
  mkJob 100 ("Completed! " +:+ pretty count +:+ " products imported")
        true (Some count) None None.
Definition error_record (e : Exn) : JobRecord :=
  mkJob 0 ("Error: " +:+ str_exn e) true None (Some true) None.

Section Importer.

(** [int_ratio85 x n] is the value of [int(x / n * 85)].  Python computes
    the quotient and the product in binary floating point; the embedding
    takes the outcome as a parameter.  [exact_ratio85] below is the value
    without rounding. *)
Variable int_ratio85 : nat -> nat -> Z.

Variable env : Env.
Variable task_id : string.

Definition processing_record (i total count : nat) : JobRecord :=
  mkJob (Z.min 95 (int_ratio85 (i + batch_size) total + 10))
        ("Processing... " +:+ pretty (i + batch_size)%nat +:+ "/"
           +:+ pretty total +:+ " (" +:+ pretty count +:+ " imported)")
        false None None None.

(** The loop [for i in range(0, len(df), batch_size)], over the starts that
    are left. *)
Fixpoint batch_loop (df : DataFrame) (starts : list nat)
    (existing_skus : gset string) (count : nat) : M nat :=
  match starts with
  | [] => ret count
  | i :: later =>
      if cancel_flag env (i / batch_size) then
        publish task_id cancelled_record ;;
        ret count
      else
        others_commit (other_commits env (i / batch_size)) ;;
        let batch := iloc (rows df) i (i + batch_size) in
        staged <- lift (prepare_batch (columns df) batch existing_skus count) ;;
        let '(new_products, existing', count') := staged in
        match new_products with
        | [] => ret tt
        | _ => execute_insert new_products
        end ;;
        commit ;;
        publish task_id (processing_record i (length (rows df)) count') ;;
        batch_loop df later existing' count'
  end.

Definition _process_batches (df : DataFrame) (existing_skus : gset string)
  : M nat :=
  batch_loop df (range_step (length (rows df)) batch_size) existing_skus 0.

Definition read_csv (file : CsvFile) : M DataFrame :=
  match file with
  | Unreadable msg => raise (ReadError msg)
  | Parsed df => ret df
  end.

(** The [try] block.  Removing the temporary file leaves no trace in the
    world modelled here. *)
Definition import_body (file : CsvFile) : M ImportResult :=
  publish task_id loading_record ;;
  df <- read_csv file ;;
  let total_rows := length (rows df) in
  publish task_id preprocessing_record ;;
  df <- lift (_preprocess_dataframe df) ;;
  existing_skus <- _get_existing_skus ;;
  count <- _process_batches df existing_skus ;;
  publish task_id (completed_record count) ;;
  ret (mkResult count total_rows).

(** [db_session = SessionLocal()], then [try] / [except Exception] with its
    [raise] / [finally]. *)
Definition import_products_from_csv (file : CsvFile) : M ImportResult :=
  fun w =>
    let fresh := mkWorld (db w) [] (progress_store w) (published w) in
    match import_body file fresh with
    | (Return r, w') => (Return r, close w')
    | (Raise e, w') =>
        let '(_, w'') := publish task_id (error_record e) w' in
        (Raise e, close (rollback w''))
    end.

End Importer.

(** The value of [int(x / n * 85)] when nothing is rounded. *)
Definition exact_ratio85 (x n : nat) : Z :=
  (Z.of_nat x * 85 / Z.of_nat n)%Z.

(** ** ProductService: single products *)

Definition create_product (name sku description : string) (active : bool)
  : M Product :=
  existing <- query_first (fun p => ilike (p_sku p) sku) ;;
  match existing with
  | Some _ =>
      raise (ValueError ("Product with SKU '" +:+ sku +:+ "' already exists"))
  | None =>
      product <- add (mkNewProduct name (lower sku) description active) ;;
      commit ;;
      ret product
  end.

Definition delete_product (product_id : Z) : M bool :=
  UnitOfWork.in_session
    (product <- UnitOfWork.first
                  (fun p => bool_decide (p_id p = product_id)) ;;
     match product with
     | None => UnitOfWork.ret false
     | Some p =>
         UnitOfWork.delete p ;;
         UnitOfWork.commit ;;
         UnitOfWork.ret true
     end)%uow.

(** A world whose table is [t], with no job and no open transaction. *)
Definition world_of (t : list Product) : World := mkWorld t [] ∅ [].

(** The file of the scenario in the specification. *)
Definition scenario_frame : DataFrame :=
  mkFrame ["name"; "sku"; "description"]
    [mkRow "A" "sku-1" "d1"; mkRow "B" "SKU-1 " "d2"; mkRow "C" "sku-2" "d3"]
    Object.

Definition scenario : CsvFile := Parsed scenario_frame.

(** ** Vocabulary of the statements *)

(** The SKUs of a table as [_get_existing_skus] reads them. *)
Definition lower_skus (t : list Product) : gset string :=
  list_to_set (lower <$> skus t).

(** The row [prepare_batch] stages for a row of the frame. *)
Definition staged_of (cols : list string) (r : Row) : NewProduct :=
  mkNewProduct (row_name r) (lower (row_sku r))
    (get cols "description" (row_description r) "") true.

(** The records a run of the loop over [starts] can leave: one per batch
    done, in order, closed by the cancellation record when the flag was
    seen. *)
Inductive loop_trace (ratio : nat -> nat -> Z) (total : nat)
  : list nat -> list JobRecord -> Prop :=
| loop_trace_stop starts :
    loop_trace ratio total starts []
| loop_trace_cancel i later :
    loop_trace ratio total (i :: later) [cancelled_record]
| loop_trace_batch i later count new :
    loop_trace ratio total later new ->
    loop_trace ratio total (i :: later)
      (processing_record ratio i total count :: new).

(** The world of a turn of the loop once the other writers have committed,
    and once the batch is committed and its progress published. *)
Definition after_others (env : Env) (i : nat) (w : World) : World :=
  mkWorld (foldl commit_other (db w) (other_commits env (i / batch_size)))
          (txn w) (progress_store w) (published w).

Definition after_batch (task_id : string) (rec : JobRecord) (w : World)
  : World :=
  mkWorld (db w ++ txn w) [] (<[task_id := rec]> (progress_store w))
          (published w ++ [rec]).

(** [conflict_in ... starts ex n w e wr kept]: the loop over [starts], begun
    with the known SKUs [ex], the count [n] and the world [w], comes to a
    batch whose bulk insert is refused by the write layer with [e].  [wr] is
    the world at the refusal: its [db] is the table as committed so far, its
    [txn] holds the rows of the refused batch that had gone through.  [kept]
    are the rows the batches before it have inserted and committed. *)
Inductive conflict_in (ratio : nat -> nat -> Z) (env : Env) (task_id : string)
    (df : DataFrame)
  : list nat -> gset string -> nat -> World -> Exn -> World -> list Product
    -> Prop :=
| conflict_here i later ex n w new ex' n' e wr :
    cancel_flag env (i / batch_size) = false ->
    prepare_batch (columns df) (iloc (rows df) i (i + batch_size)) ex n
      = Return (new, ex', n') ->
    execute_insert new (after_others env i w) = (Raise e, wr) ->
    conflict_in ratio env task_id df (i :: later) ex n w e wr []
| conflict_later i later ex n w new ex' n' w2 e wr kept :
    cancel_flag env (i / batch_size) = false ->
    prepare_batch (columns df) (iloc (rows df) i (i + batch_size)) ex n
      = Return (new, ex', n') ->
    execute_insert new (after_others env i w) = (Return tt, w2) ->
    conflict_in ratio env task_id df later ex' n'
      (after_batch task_id
         (processing_record ratio i (length (rows df)) n') w2) e wr kept ->
    conflict_in ratio env task_id df (i :: later) ex n w e wr
      (txn w2 ++ kept).

(** The frame [_preprocess_dataframe] returns. *)
Definition preprocessed (df : DataFrame) : DataFrame :=
  mkFrame (columns df) (normalize_sku <$> drop_duplicates_last (rows df))
          Object.

(** The world after the [except] or the normal end of the [try] block has
    written its terminal record [r] and the session is closed. *)
Definition ended (task_id : string) (w : World) (r : JobRecord) : World :=
  mkWorld (db w) [] (<[task_id := r]> (progress_store w)) (published w ++ [r]).

(** The world in which the batch loop starts. *)
Definition started (task_id : string) (w : World) : World :=
  mkWorld (db w) []
    (<[task_id := preprocessing_record]>
       (<[task_id := loading_record]> (progress_store w)))
    (published w ++ [loading_record; preprocessing_record]).

(** The ways through [import_products_from_csv]: the file cannot be read,
    the frame has no column [sku], its column [sku] is not of text, the
    batch loop returns, the batch loop
    raises. *)
Inductive import_run (int_ratio85 : nat -> nat -> Z) (env : Env)
    (task_id : string) (file : CsvFile) (w : World)
  : Result ImportResult -> World -> Prop :=
| run_unreadable msg :
    file = Unreadable msg ->
    import_run int_ratio85 env task_id file w (Raise (ReadError msg))
      (ended task_id
         (mkWorld (db w) [] (<[task_id := loading_record]> (progress_store w))
            (published w ++ [loading_record]))
         (error_record (ReadError msg)))
| run_no_sku df :
    file = Parsed df -> "sku" ∉ columns df ->
    import_run int_ratio85 env task_id file w (Raise (KeyErrorIndex ["sku"]))
      (ended task_id (started task_id w)
         (error_record (KeyErrorIndex ["sku"])))
| run_not_text df :
    file = Parsed df -> "sku" ∈ columns df -> sku_dtype df ≠ Object ->
    import_run int_ratio85 env task_id file w (Raise not_text)
      (ended task_id (started task_id w) (error_record not_text))
| run_returned df count wl :
    file = Parsed df -> "sku" ∈ columns df -> sku_dtype df = Object ->
    _process_batches int_ratio85 env task_id (preprocessed df)
      (lower_skus (db w)) (started task_id w) = (Return count, wl) ->
    import_run int_ratio85 env task_id file w
      (Return (mkResult count (length (rows df))))
      (ended task_id wl (completed_record count))
| run_raised df e wl :
    file = Parsed df -> "sku" ∈ columns df -> sku_dtype df = Object ->
    _process_batches int_ratio85 env task_id (preprocessed df)
      (lower_skus (db w)) (started task_id w) = (Raise e, wl) ->
    import_run int_ratio85 env task_id file w (Raise e)
      (ended task_id wl (error_record e)).

(** The records of a log that were published before completion. *)
Definition running (l : list JobRecord) : list JobRecord :=
  filter (fun r => completed r = false) l.

(** The file cannot be read, or the frame has no column [sku]. *)
Definition input_error (file : CsvFile) : Prop :=
  match file with
  | Unreadable _ => True
  | Parsed df => "sku" ∉ columns df
  end.

(** ** Inputs of the examples *)

Definition run_scenario : Result ImportResult * World :=
  import_products_from_csv exact_ratio85 quiet "job" scenario (world_of []).

(** The cancellation flag of the job is set when the first batch is due. *)
Definition cancel_at_once : Env := mkEnv (fun _ => true) (fun _ => []).

Definition run_cancelled : Result ImportResult * World :=
  import_products_from_csv exact_ratio85 cancel_at_once "job" scenario
    (world_of []).

Definition plain_file : CsvFile :=
  Parsed (mkFrame ["name"; "sku"; "description"]
            [mkRow "A" "sku-1" "d1"; mkRow "B" "sku-1" "d2"] Object).

Definition mixed_file : CsvFile :=
  Parsed (mkFrame ["name"; "sku"; "description"]
            [mkRow "A" "sku-1" "d1"; mkRow "B" "SKU-1 " "d2"] Object).

(** Another job commits [sku-2] while the first batch is being prepared. *)
Definition racing : Env :=
  mkEnv (fun _ => false)
        (fun k => match k with
                  | O => [mkNewProduct "X" "sku-2" "dx" true]
                  | S _ => []
                  end).

Definition run_raced : Result ImportResult * World :=
  import_products_from_csv exact_ratio85 racing "job" scenario (world_of []).

Definition run_unreadable_file : Result ImportResult * World :=
  import_products_from_csv exact_ratio85 quiet "job"
    (Unreadable "No columns to parse from file") (world_of []).

Definition stored_with_blanks : list Product :=
  [mkProduct 1 "Old" " abc " "" true].

Definition run_over_blanks : Result ImportResult * World :=
  import_products_from_csv exact_ratio85 quiet "job"
    (Parsed (mkFrame ["name"; "sku"; "description"] [mkRow "New" "abc" "d"]
               Object))
    (world_of stored_with_blanks).

Definition frame_without_name : DataFrame :=
  mkFrame ["sku"; "description"] [mkRow "" "sku-9" "d9"] Object.

(** ** ProductService: updating, clearing and listing *)

(** [Product with SKU '...' already exists]. *)
Definition sku_taken (sku : string) : Exn :=
  ValueError ("Product with SKU '" +:+ sku +:+ "' already exists").

(** The block under [# Check SKU uniqueness if updating SKU]; in the test
    [if sku and sku.lower() != product.sku], [None] and the empty string
    count as false. *)
Definition check_sku (product_id : Z) (sku : option string)
    (product : Product) : UnitOfWork.S unit :=
  match sku with
  | Some s =>
      if negb (bool_decide (s = ""))
         && negb (bool_decide (lower s = p_sku product))
      then
        (existing <- UnitOfWork.first
           (fun p => ilike (p_sku p) s
                     && negb (bool_decide (p_id p = product_id))) ;;
         match existing with
         | Some _ => UnitOfWork.raise (sku_taken s)
         | None => UnitOfWork.ret tt
         end)%uow
      else UnitOfWork.ret tt
  | None => UnitOfWork.ret tt
  end.

(** [db.refresh(product)] reads the row back as the commit has written
    it. *)
Definition update_product (product_id : Z) (name sku description : option string)
    (active : option bool) : M (option Product) :=
  UnitOfWork.in_session
    (found <- UnitOfWork.first
                (fun p => bool_decide (p_id p = product_id)) ;;
     match found with
     | None => UnitOfWork.ret None
     | Some product =>
         check_sku product_id sku product ;;
         let updated :=
           mkProduct (p_id product)
             (default (p_name product) name)
             (default (p_sku product) (lower <$> sku))
             (default (p_description product) description)
             (default (p_active product) active) in
         UnitOfWork.set_attributes product updated ;;
         UnitOfWork.commit ;;
         UnitOfWork.ret (Some updated)
     end)%uow.

Definition delete_all_products : M nat :=
  UnitOfWork.in_session
    (count <- UnitOfWork.count (fun _ => true) ;;
     UnitOfWork.delete_query ;;
     UnitOfWork.commit ;;
     UnitOfWork.ret count)%uow.

(** The dict [get_products_paginated] returns. *)
Record Page := mkPage {
  pg_products : list Product;
  pg_total : Z;
  pg_page : Z;
  pg_per_page : Z;
  pg_total_pages : Z
}.

(** [get_products_paginated] returns its dict, or the division that computes
    [total_pages] fails. *)
Inductive PageOutcome :=
| PageOk (page : Page)
| ZeroDivisionError.

(** The filter of [if search:], the same pattern on the three text columns. *)
Definition matches_search (search : option string) (p : Product) : bool :=
  match search with
  | Some s =>
      if bool_decide (s = "") then true
      else
        let pattern := "%" +:+ s +:+ "%" in
        ilike (p_name p) pattern || ilike (p_sku p) pattern
        || ilike (p_description p) pattern
  | None => true
  end.

(** The filter of [if active and active.lower() not in ['none', '']]. *)
Definition matches_active (active : option string) (p : Product) : bool :=
  match active with
  | Some a =>
      if negb (bool_decide (a = ""))
         && negb (bool_decide (lower a ∈ ["none"; ""]))
      then Bool.eqb (p_active p) (bool_decide (lower a = "true"))
      else true
  | None => true
  end.

(** [query.offset(n)] and [query.limit(n)], in the order of the table.  For a
    negative [n] SQLite skips nothing and limits nothing. *)
Definition offset (n : Z) (l : list Product) : list Product :=
  drop (Z.to_nat n) l.
Definition limit (n : Z) (l : list Product) : list Product :=
  if bool_decide (n < 0)%Z then l else take (Z.to_nat n) l.

(** The rows the filters of [get_products_paginated] let through. *)
Definition filtered (search active : option string) (w : World)
  : list Product :=
  filter (fun p => matches_search search p && matches_active active p)
         (db w ++ txn w).

Definition get_products_paginated (page per_page : Z)
    (search active : option string) (w : World) : PageOutcome :=
  let query := filtered search active w in
  let total := Z.of_nat (length query) in
  let products := limit per_page (offset ((page - 1) * per_page) query) in
  if bool_decide (per_page = 0%Z) then ZeroDivisionError
  else PageOk (mkPage products total page per_page
                      ((total + per_page - 1) / per_page)).

(** ** The routes of [api/products.py] that read the registry and the table *)

(** What [get_task_status] answers. *)
Inductive TaskState :=
| NotFound
| FAILURE (result : bool)
| SUCCESS (count total : nat)
| PROGRESS (percent : Z) (current total : nat) (text : string).

(** No record anywhere in the code has a key [total] or [current], so
    [data.get('total', 0)] and [data.get('current', 0)] are 0. *)
Definition get_task_status (task_id : string) (store : gmap string JobRecord)
  : TaskState :=
  match store !! task_id with
  | None => NotFound
  | Some data =>
      if completed data then
        match error data with
        | Some e => FAILURE e
        | None => SUCCESS (default 0%nat (imported data)) 0
        end
      else PROGRESS (progress data) 0 0 (status data)
  end.

(** [cancel_task], on the two global dicts. *)
Definition cancel_task (task_id : string) (cancel_flags : gmap string bool)
    (store : gmap string JobRecord)
  : gmap string bool * gmap string JobRecord :=
  (<[task_id := true]> cancel_flags,
   alter (fun r => mkJob (progress r) "Cancelling..." (completed r)
                         (imported r) (error r) (cancelled r))
         task_id store).

(** [cancel_flags.get(task_id, False)]. *)
Definition flag_of (cancel_flags : gmap string bool) (task_id : string) : bool :=
  default false (cancel_flags !! task_id).

(** The dict [get_status] returns, without its constant [database_status]. *)
Record Status := mkStatus {
  total_products : Z;
  active_products : Z;
  inactive_products : Z
}.

Definition get_status (w : World) : Status :=
  let total := Z.of_nat (length (db w ++ txn w)) in
  let active :=
    Z.of_nat (length (filter (fun p => p_active p = true) (db w ++ txn w))) in
  mkStatus total active (total - active).

(** ** The webhook registry of [api/webhooks.py] *)

Module Webhooks.

Record Webhook := mkWebhook {
  wh_id : Z;
  wh_url : string;
  wh_event_types : list string;
  wh_enabled : bool;
  wh_created_at : string
}.

Record WebhookCreate := mkCreate {
  wc_url : string;
  wc_event_types : list string;
  wc_enabled : bool
}.

Record WebhookUpdate := mkUpdate {
  wu_url : option string;
  wu_event_types : option (list string);
  wu_enabled : option bool
}.

(** The two globals of the module. *)
Record State := mkState {
  webhooks : list Webhook;
  webhook_counter : Z
}.

Inductive Response (A : Type) :=
| Ok (a : A)
| HTTPException (status_code : Z) (detail : string).
Arguments Ok {A} a.
Arguments HTTPException {A} status_code detail.

Definition list_webhooks (st : State) : list Webhook := webhooks st.

Definition create_webhook (webhook_data : WebhookCreate) (st : State)
  : Webhook * State :=
  let counter := (webhook_counter st + 1)%Z in
  let webhook :=
    mkWebhook counter (wc_url webhook_data) (wc_event_types webhook_data)
              (wc_enabled webhook_data) "2025-11-15T11:09:00Z" in
  (webhook, mkState (webhooks st ++ [webhook]) counter).

(** The assignments of [update_webhook] to the dict it found. *)
Definition apply_update (webhook_data : WebhookUpdate) (webhook : Webhook)
  : Webhook :=
  mkWebhook (wh_id webhook)
    (default (wh_url webhook) (wu_url webhook_data))
    (default (wh_event_types webhook) (wu_event_types webhook_data))
    (default (wh_enabled webhook) (wu_enabled webhook_data))
    (wh_created_at webhook).

(** The dict that [next(w for w in webhooks if w["id"] == webhook_id)] finds
    is changed where it sits in the list. *)
Fixpoint update_first (webhook_id : Z) (f : Webhook -> Webhook)
    (l : list Webhook) : list Webhook :=
  match l with
  | [] => []
  | w :: more =>
      if bool_decide (wh_id w = webhook_id) then f w :: more
      else w :: update_first webhook_id f more
  end.

Definition update_webhook (webhook_id : Z) (webhook_data : WebhookUpdate)
    (st : State) : Response Webhook * State :=
  match find (fun w => bool_decide (wh_id w = webhook_id)) (webhooks st) with
  | None => (HTTPException 404 "Webhook not found", st)
  | Some webhook =>
      (Ok (apply_update webhook_data webhook),
       mkState (update_first webhook_id (apply_update webhook_data)
                             (webhooks st))
               (webhook_counter st))
  end.

Definition delete_webhook (webhook_id : Z) (st : State) : string * State :=
  ("Webhook deleted",
   mkState (filter (fun w => wh_id w ≠ webhook_id) (webhooks st))
           (webhook_counter st)).

(** What the module keeps true: the ids are pairwise different, positive and
    not above the counter. *)
Definition well_formed (st : State) : Prop :=
  NoDup (wh_id <$> webhooks st) /\
  Forall (fun w => (0 < wh_id w <= webhook_counter st)%Z) (webhooks st).

(** The globals when the module is loaded. *)
Definition initial : State := mkState [] 0.

End Webhooks.

(** The requests that change the registry, and the registry after one. *)
Inductive WebhookRequest :=
| PostWebhook (webhook_data : Webhooks.WebhookCreate)
| PutWebhook (webhook_id : Z) (webhook_data : Webhooks.WebhookUpdate)
| DeleteWebhook (webhook_id : Z).

Definition serve (st : Webhooks.State) (request : WebhookRequest)
  : Webhooks.State :=
  match request with
  | PostWebhook webhook_data => snd (Webhooks.create_webhook webhook_data st)
  | PutWebhook webhook_id webhook_data =>
      snd (Webhooks.update_webhook webhook_id webhook_data st)
  | DeleteWebhook webhook_id => snd (Webhooks.delete_webhook webhook_id st)
  end.

Definition is_post (request : WebhookRequest) : bool :=
  match request with PostWebhook _ => true | _ => false end.

(** The number of webhooks created by the requests. *)
Definition posts (requests : list WebhookRequest) : nat :=
  length (filter (fun request => is_post request = true) requests).

(** ** Vocabulary of the further statements *)

(** The constraints of the table: the primary key and the unique index. *)
Definition keys_unique (t : list Product) : Prop :=
  NoDup (p_id <$> t) /\ NoDup (skus t).

(** No two rows have the same SKU up to letter case. *)
Definition skus_unique_nocase (t : list Product) : Prop :=
  NoDup (lower <$> skus t).

(** [contains text s]: the text [s] occurs in [text]. *)
Definition contains (text s : string) : Prop :=
  exists pre post, text = pre +:+ s +:+ post.

(** A text without the wild cards of [LIKE]. *)
Fixpoint plain (s : string) : bool :=
  match s with
  | EmptyString => true
  | String c r => negb (Ascii.eqb c "%") && negb (Ascii.eqb c "_") && plain r
  end.

(** The row [update_product] writes for the row [p]. *)
Definition updated_row (p : Product) (name sku description : option string)
    (active : option bool) : Product :=
  mkProduct (p_id p)
    (default (p_name p) name)
    (default (p_sku p) (lower <$> sku))
    (default (p_description p) description)
    (default (p_active p) active).

(** The ways through [update_product] on a table with a primary key. *)
Inductive update_run (product_id : Z) (name sku description : option string)
    (active : option bool) (t : list Product)
  : Result (option Product) -> list Product -> Prop :=
| update_missing :
    (forall q, q ∈ t -> p_id q ≠ product_id) ->
    update_run product_id name sku description active t (Return None) t
| update_taken t1 p t2 s q :
    t = t1 ++ p :: t2 -> p_id p = product_id ->
    (forall q, q ∈ t1 ++ t2 -> p_id q ≠ product_id) ->
    sku = Some s -> s ≠ "" -> lower s ≠ p_sku p ->
    q ∈ t1 ++ t2 -> ilike (p_sku q) s = true ->
    update_run product_id name sku description active t
      (Raise (sku_taken s)) t
| update_refused t1 p t2 :
    t = t1 ++ p :: t2 -> p_id p = product_id ->
    (forall q, q ∈ t1 ++ t2 -> p_id q ≠ product_id) ->
    sku = Some "" -> p_sku p ≠ "" -> "" ∈ skus (t1 ++ t2) ->
    update_run product_id name sku description active t
      (Raise (IntegrityError "products.sku")) t
| update_done t1 p t2 :
    t = t1 ++ p :: t2 -> p_id p = product_id ->
    (forall q, q ∈ t1 ++ t2 -> p_id q ≠ product_id) ->
    (p_sku (updated_row p name sku description active) = p_sku p \/
     lower (p_sku (updated_row p name sku description active))
       ∉ (lower <$> skus (t1 ++ t2))) ->
    update_run product_id name sku description active t
      (Return (Some (updated_row p name sku description active)))
      (t1 ++ updated_row p name sku description active :: t2).

(** * Properties *)

(** ** Text *)

Lemma lower_char_idem (c : ascii) : lower_char (lower_char c) = lower_char c.
Proof. destruct c as [[] [] [] [] [] [] [] []]; reflexivity. Qed.

Lemma lower_idem (s : string) : lower (lower s) = lower s.
Proof.
  induction s as [|c s IH]; simpl; [reflexivity|].
  by rewrite lower_char_idem, IH.
Qed.

(** ** Running a computation *)

Lemma bind_unfold {A B} (m : M A) (k : A -> M B) w :
  bind m k w = match m w with
               | (Return a, w') => k a w'
               | (Raise e, w') => (Raise e, w')
               end.
Proof. reflexivity. Qed.

(** ** The session *)

Lemma skus_app (t u : list Product) : skus (t ++ u) = skus t ++ skus u.
Proof. unfold skus. apply fmap_app. Qed.

Lemma next_id_above (t : list Product) p : p ∈ t -> (p_id p < next_id t)%Z.
Proof.
  unfold next_id. induction t as [|q t IH]; [by intros ?%elem_of_nil|].
  rewrite fmap_cons. simpl.
  intros [-> | Hp]%elem_of_cons; [lia|]. apply IH in Hp. lia.
Qed.

Lemma next_id_fresh (t : list Product) : next_id t ∉ (p_id <$> t).
Proof.
  intros (p & Heq & Hp)%list_elem_of_fmap. apply next_id_above in Hp. lia.
Qed.

Lemma foldl_commit_other_prefix (nps : list NewProduct) :
  forall t, t `prefix_of` foldl commit_other t nps.
Proof.
  induction nps as [|np nps IH]; intros t; simpl; [done|].
  etrans; [|apply IH]. unfold commit_other.
  case_bool_decide; [done|]. by apply prefix_app_r.
Qed.

Lemma insert_one_inv (np : NewProduct) w r w' :
  insert_one np w = (r, w') ->
  db w' = db w /\ progress_store w' = progress_store w /\
  published w' = published w /\
  match r with
  | Return _ =>
      (np_sku np ∉ skus (db w ++ txn w)) /\
      txn w' = txn w ++ [stored (next_id (db w ++ txn w)) np]
  | Raise e =>
      e = IntegrityError "products.sku" /\ txn w' = txn w /\
      np_sku np ∈ skus (db w ++ txn w)
  end.
Proof.
  unfold insert_one. case_bool_decide as Hin; intros [= <- <-]; simpl.
  all: repeat split; auto.
Qed.

(** A bulk insert touches nothing but the open transaction; when it goes
    through, the transaction has grown by the staged rows, in order. *)
Lemma execute_insert_inv (nps : list NewProduct) : forall w r w',
  execute_insert nps w = (r, w') ->
  db w' = db w /\ progress_store w' = progress_store w /\
  published w' = published w /\
  match r with
  | Return _ =>
      exists ps, txn w' = txn w ++ ps /\ skus ps = np_sku <$> nps /\
                 Forall2 (fun p np => p = stored (p_id p) np) ps nps
  | Raise e => e = IntegrityError "products.sku"
  end.
Proof.
  induction nps as [|np nps IH]; intros w r w' H; simpl in H.
  - injection H as <- <-. repeat split; auto.
    exists []. by rewrite app_nil_r.
  - unfold bind in H. destruct (insert_one np w) as [[[]|e] w1] eqn:E1.
    + apply insert_one_inv in E1 as (Hd & Hs & Hp & _ & Ht).
      apply IH in H as (Hd' & Hs' & Hp' & Hr).
      rewrite Hd', Hs', Hp'. repeat split; auto.
      destruct r as [[]|e]; [|assumption].
      destruct Hr as (ps & Hps & Hsk & Hf).
      exists (stored (next_id (db w ++ txn w)) np :: ps).
      rewrite Hps, Ht, <- app_assoc. simpl. rewrite Hsk.
      repeat split; auto.
    + injection H as <- <-.
      apply insert_one_inv in E1 as (Hd & Hs & Hp & He & _).
      repeat split; auto.
Qed.

(** With pairwise different SKUs, none of them in the table or in the open
    transaction, the bulk insert goes through. *)
Lemma execute_insert_ok (nps : list NewProduct) : forall w,
  NoDup (np_sku <$> nps) ->
  (forall s, s ∈ (np_sku <$> nps) -> s ∉ skus (db w ++ txn w)) ->
  exists w', execute_insert nps w = (Return tt, w').
Proof.
  induction nps as [|np nps IH]; intros w Hnd Hfresh; simpl.
  - by eexists.
  - rewrite fmap_cons in Hnd. apply NoDup_cons in Hnd as [Hnp Hnd].
    unfold bind.
    destruct (insert_one np w) as [[[]|e] w1] eqn:E1.
    + apply insert_one_inv in E1 as (Hd & _ & _ & _ & Ht).
      apply IH; [assumption|].
      intros s Hs. rewrite Hd, Ht, app_assoc, skus_app. simpl.
      rewrite elem_of_app, list_elem_of_singleton.
      intros [Hin | ->]; [|contradiction].
      revert Hin. apply Hfresh. rewrite fmap_cons. by right.
    + apply insert_one_inv in E1 as (_ & _ & _ & _ & _ & Hin).
      exfalso. revert Hin. apply Hfresh. rewrite fmap_cons. by left.
Qed.

(** ** Staging a batch *)

Lemma getitem_inv cols key cell r :
  getitem cols key cell = r ->
  (key ∈ cols /\ r = Return cell) \/
  ((key ∉ cols) /\ r = Raise (KeyError key)).
Proof. unfold getitem. case_bool_decide; intros <-; auto. Qed.

(** What a staged batch looks like: the count grows by the number of staged
    rows, their SKUs are new, pairwise different and lowercase images of rows
    of the batch, and afterwards every SKU of the batch is known. *)
Lemma prepare_batch_inv cols (batch : list Row) :
  forall (ex : gset string) n new ex' n',
  prepare_batch cols batch ex n = Return (new, ex', n') ->
  n' = (n + length new)%nat /\
  ex' = ex ∪ list_to_set (np_sku <$> new) /\
  NoDup (np_sku <$> new) /\
  (forall s, s ∈ (np_sku <$> new) -> s ∉ ex) /\
  (forall np, np ∈ new ->
     exists r, r ∈ batch /\
       np = mkNewProduct (row_name r) (lower (row_sku r))
              (get cols "description" (row_description r) "") true) /\
  (forall r, r ∈ batch -> lower (row_sku r) ∈ ex').
Proof.
  induction batch as [|row more IH]; intros ex n new ex' n' H; simpl in H.
  - injection H as <- <- <-. simpl.
    repeat split; try (by constructor); try set_solver.
  - destruct (getitem_inv _ _ _ _ (eq_refl (getitem cols "sku" (row_sku row))))
      as [[_ E]|[_ E]]; rewrite E in H; simpl in H; [|discriminate].
    case_bool_decide as Hknown.
    + apply IH in H as (Hn & Hex & Hnd & Hfresh & Hsrc & Hcov).
      repeat split; auto.
      * intros np Hnp. destruct (Hsrc np Hnp) as (r & Hr & ->).
        exists r. split; [by right | reflexivity].
      * intros r [-> | Hr]%elem_of_cons; [|by apply Hcov].
        rewrite Hex. set_solver.
    + destruct (getitem_inv _ _ _ _ (eq_refl (getitem cols "name" (row_name row))))
        as [[_ E']|[_ E']]; rewrite E' in H; simpl in H; [|discriminate].
      destruct (prepare_batch cols more ({[lower (row_sku row)]} ∪ ex) (S n))
        as [[[new1 ex1] n1]|e] eqn:Erec; simpl in H; [|discriminate].
      injection H as <- <- <-.
      apply IH in Erec as (Hn & Hex & Hnd & Hfresh & Hsrc & Hcov).
      simpl. repeat split.
      * lia.
      * rewrite Hex. set_solver.
      * apply NoDup_cons. split; [|assumption].
        intros Hin. apply Hfresh in Hin. set_solver.
      * intros s [-> | Hs]%elem_of_cons; [assumption|].
        apply Hfresh in Hs. set_solver.
      * intros np [-> | Hnp]%elem_of_cons.
        -- exists row. split; [by left | reflexivity].
        -- destruct (Hsrc np Hnp) as (r & Hr & ->).
           exists r. split; [by right | reflexivity].
      * intros r [-> | Hr]%elem_of_cons; [|by apply Hcov].
        rewrite Hex. set_solver.
Qed.

Lemma prepare_batch_total cols (batch : list Row) :
  "sku" ∈ cols -> "name" ∈ cols ->
  forall (ex : gset string) n, exists out, prepare_batch cols batch ex n = Return out.
Proof.
  intros Hsku Hname. induction batch as [|row more IH]; intros ex n; simpl.
  - by eexists.
  - unfold getitem. rewrite !bool_decide_eq_true_2 by assumption. simpl.
    case_bool_decide; [apply IH|].
    destruct (IH ({[lower (row_sku row)]} ∪ ex) (S n)) as [[[new1 ex1] n1] ->].
    simpl. by eexists.
Qed.

(** A batch all of whose SKUs are known stages nothing. *)
Lemma prepare_batch_known cols (batch : list Row) (ex : gset string) n :
  "sku" ∈ cols ->
  (forall r, r ∈ batch -> lower (row_sku r) ∈ ex) ->
  prepare_batch cols batch ex n = Return ([], ex, n).
Proof.
  intros Hsku. induction batch as [|row more IH]; intros Hall; simpl.
  - reflexivity.
  - unfold getitem. rewrite bool_decide_eq_true_2 by assumption. simpl.
    rewrite bool_decide_eq_true_2 by (apply Hall; by left).
    apply IH. intros r Hr. apply Hall. by right.
Qed.

(** Without the column [name] nothing can be staged: the batch either stages
    no row or raises at the first row that is new. *)
Lemma prepare_batch_no_name cols (batch : list Row) :
  "name" ∉ cols ->
  forall (ex : gset string) n,
  match prepare_batch cols batch ex n with
  | Return (new, ex', n') => new = [] /\ ex' = ex /\ n' = n
  | Raise e => e = KeyError "sku" \/ e = KeyError "name"
  end.
Proof.
  intros Hname. induction batch as [|row more IH]; intros ex n; simpl.
  - auto.
  - unfold getitem. case_bool_decide; simpl; [|auto].
    case_bool_decide; [apply IH|].
    rewrite (bool_decide_eq_false_2 _ Hname). simpl. auto.
Qed.

Lemma prepare_batch_raise cols (batch : list Row) :
  forall (ex : gset string) n e,
  prepare_batch cols batch ex n = Raise e ->
  (e = KeyError "sku" /\ ("sku" ∉ cols)) \/
  (e = KeyError "name" /\ ("name" ∉ cols)).
Proof.
  induction batch as [|row more IH]; intros ex n e; simpl; [discriminate|].
  unfold getitem. case_bool_decide; simpl; [|intros [= <-]; auto].
  case_bool_decide; [apply IH|].
  case_bool_decide; simpl; [|intros [= <-]; auto].
  destruct (prepare_batch cols more _ _) as [[[new1 ex1] n1]|e1] eqn:E; simpl.
  - discriminate.
  - intros [= <-]. eapply IH, E.
Qed.

Lemma fmap_lower_fixed (l : list string) :
  (forall s, s ∈ l -> lower s = s) -> lower <$> l = l.
Proof.
  induction l as [|s l IH]; intros H; simpl; [reflexivity|].
  rewrite H by (by left). f_equal. apply IH. intros s' Hs'. apply H. by right.
Qed.

(** ** The batch loop *)

Lemma batch_size_pos : (0 < batch_size)%nat.
Proof. unfold batch_size. lia. Qed.

#[global] Opaque batch_size.

Lemma lower_skus_app (t u : list Product) :
  lower_skus (t ++ u) = lower_skus t ∪ lower_skus u.
Proof.
  unfold lower_skus. by rewrite skus_app, fmap_app, list_to_set_app_L.
Qed.

Lemma elem_of_lower_skus s (t : list Product) :
  s ∈ lower_skus t <-> exists p, p ∈ t /\ s = lower (p_sku p).
Proof.
  unfold lower_skus, skus. rewrite elem_of_list_to_set, list_elem_of_fmap.
  split.
  - intros (x & -> & (p & -> & Hp)%list_elem_of_fmap). eauto.
  - intros (p & Hp & ->). eexists. split; [reflexivity|].
    by apply list_elem_of_fmap_2.
Qed.

(** A lowercase SKU that no row has under [LOWER] is the SKU of no row. *)
Lemma fresh_lower_not_stored s (t : list Product) :
  lower s ∉ lower_skus t -> lower s ∉ skus t.
Proof.
  intros Hfresh (p & Heq & Hp)%list_elem_of_fmap. apply Hfresh.
  apply elem_of_lower_skus. exists p. split; [assumption|].
  by rewrite <- Heq, lower_idem.
Qed.

Lemma elem_of_iloc (l : list Row) i j r : r ∈ iloc l i j -> r ∈ l.
Proof.
  unfold iloc. intros H. eapply subseteq_drop, subseteq_take, H.
Qed.

Section LoopFacts.

Variable int_ratio85 : nat -> nat -> Z.
Variable env : Env.
Variable task_id : string.
Variable df : DataFrame.

Let loop := batch_loop int_ratio85 env task_id df.

(** One turn of the loop, case by case. *)
Lemma batch_loop_step i later (ex : gset string) n w res w' :
  loop (i :: later) ex n w = (res, w') ->
  (cancel_flag env (i / batch_size) = true /\ res = Return n /\
   w' = mkWorld (db w) (txn w) (<[task_id := cancelled_record]> (progress_store w))
          (published w ++ [cancelled_record])) \/
  (cancel_flag env (i / batch_size) = false /\
   let w1 := mkWorld (foldl commit_other (db w) (other_commits env (i / batch_size)))
               (txn w) (progress_store w) (published w) in
   match prepare_batch (columns df) (iloc (rows df) i (i + batch_size)) ex n with
   | Raise e => res = Raise e /\ w' = w1
   | Return (new, ex', n') =>
       exists r2 w2,
         match new with [] => ret tt | _ => execute_insert new end w1 = (r2, w2) /\
         match r2 with
         | Raise e => res = Raise e /\ w' = w2
         | Return _ =>
             let rec := processing_record int_ratio85 i (length (rows df)) n' in
             loop later ex' n'
               (mkWorld (db w2 ++ txn w2) [] (<[task_id := rec]> (progress_store w2))
                  (published w2 ++ [rec])) = (res, w')
         end
   end).
Proof.
  unfold loop. simpl.
  destruct (cancel_flag env (i / batch_size)) eqn:Hc.
  - intros [= <- <-]. left. auto.
  - intros H. right. split; [reflexivity|]. simpl.
    unfold bind at 1 in H. simpl in H.
    unfold bind at 1 in H. unfold lift at 1 in H.
    destruct (prepare_batch _ _ ex n) as [[[new ex'] n']|e].
    + unfold bind at 1 in H.
      match type of H with
      | context [match ?m ?w with _ => _ end] =>
          destruct (m w) as [[[]|e2] w2] eqn:E2
      end.
      * exists (Return tt), w2. split; [reflexivity|]. exact H.
      * exists (Raise e2), w2. split; [reflexivity|].
        injection H as <- <-. auto.
    + injection H as <- <-. auto.
Qed.


Lemma staged_insert_eq (new : list NewProduct) :
  match new with [] => ret tt | _ => execute_insert new end = execute_insert new.
Proof. by destruct new. Qed.

(** The loop only appends to the log, in the shape of [loop_trace]. *)
Lemma batch_loop_trace starts : forall (ex : gset string) n w res w',
  loop starts ex n w = (res, w') ->
  exists new, published w' = published w ++ new /\
              loop_trace int_ratio85 (length (rows df)) starts new.
Proof.
  induction starts as [|i later IH]; intros ex n w res w' H.
  - injection H as <- <-. exists []. rewrite app_nil_r. split; [done|constructor].
  - apply batch_loop_step in H as [(_ & _ & ->) | (_ & H)].
    + exists [cancelled_record]. split; [done|constructor].
    + simpl in H.
      destruct (prepare_batch _ _ ex n) as [[[new ex'] n']|e].
      * destruct H as (r2 & w2 & E2 & H). rewrite staged_insert_eq in E2.
        apply execute_insert_inv in E2 as (_ & _ & Hp & _). simpl in Hp.
        destruct r2 as [[]|e].
        -- apply IH in H as (new' & Hpub & Hshape). simpl in Hpub.
           eexists. split; [|apply loop_trace_batch, Hshape].
           rewrite Hpub, Hp, <- app_assoc. reflexivity.
        -- destruct H as [_ ->]. exists []. rewrite app_nil_r, Hp.
           split; [done|constructor].
      * destruct H as [_ ->]. exists []. rewrite app_nil_r.
        split; [done|constructor].
Qed.

(** Whatever the other writers do, the loop only appends to the table. *)
Lemma batch_loop_prefix starts : forall (ex : gset string) n w res w',
  loop starts ex n w = (res, w') -> db w `prefix_of` db w'.
Proof.
  induction starts as [|i later IH]; intros ex n w res w' H.
  - by injection H as <- <-.
  - apply batch_loop_step in H as [(_ & _ & ->) | (_ & H)]; [done|].
    simpl in H.
    pose proof (foldl_commit_other_prefix (other_commits env (i / batch_size))
                  (db w)) as Hpre.
    destruct (prepare_batch _ _ ex n) as [[[new ex'] n']|e].
    + destruct H as (r2 & w2 & E2 & H). rewrite staged_insert_eq in E2.
      apply execute_insert_inv in E2 as (Hd & _ & _ & _). simpl in Hd.
      destruct r2 as [[]|e].
      * apply IH in H. simpl in H. etrans; [exact Hpre|].
        rewrite <- Hd. etrans; [|exact H]. by apply prefix_app_r.
      * destruct H as [_ ->]. by rewrite Hd.
    + by destruct H as [_ ->].
Qed.

(** The rows a bulk insert adds to the open transaction get ids that no
    committed row has. *)
Lemma execute_insert_fresh_ids (nps : list NewProduct) : forall w r w',
  execute_insert nps w = (r, w') ->
  forall p, p ∈ txn w' -> p ∈ txn w \/ p_id p ∉ (p_id <$> db w').
Proof.
  induction nps as [|np nps IH]; intros w r w' H p Hp; simpl in H.
  - injection H as <- <-. by left.
  - unfold bind in H. destruct (insert_one np w) as [[[]|e] w1] eqn:E1.
    + pose proof (execute_insert_inv _ _ _ _ H) as (Hd & _).
      apply insert_one_inv in E1 as (Hd1 & _ & _ & _ & Ht1).
      destruct (IH _ _ _ H p Hp) as [Hold|Hnew]; [|by right].
      rewrite Ht1 in Hold.
      apply elem_of_app in Hold as [Hold| ->%list_elem_of_singleton];
        [by left|].
      right. rewrite Hd, Hd1. simpl. intros Hin.
      apply list_elem_of_fmap in Hin as (q & Hq & Hin).
      assert (q ∈ db w ++ txn w) as Hq' by (apply elem_of_app; by left).
      apply next_id_above in Hq'. lia.
    + injection H as <- <-.
      apply insert_one_inv in E1 as (_ & _ & _ & _ & Ht1 & _).
      rewrite Ht1 in Hp. by left.
Qed.

(** A batch the write layer refuses ends the loop with the exception, in
    the world of the refusal; the rows committed before are in its table,
    the rows of the refused batch are not. *)
Lemma conflict_raises starts (ex : gset string) n w e wr kept :
  conflict_in int_ratio85 env task_id df starts ex n w e wr kept ->
  txn w = [] ->
  loop starts ex n w = (Raise e, wr) /\
  (forall p, p ∈ kept -> p ∈ db wr) /\
  (forall p, p ∈ txn wr -> p ∉ db wr).
Proof.
  induction 1 as [i later ex n w new ex' n' e wr Hc Hprep Hexec
                 |i later ex n w new ex' n' w2 e wr kept Hc Hprep Hexec _ IH];
    intros Htxn.
  - destruct (loop (i :: later) ex n w) as [res w'] eqn:E.
    apply batch_loop_step in E as [(Hc' & _) | (_ & H)]; [congruence|].
    simpl in H. rewrite Hprep in H.
    destruct H as (r2 & w2' & E2 & H). rewrite staged_insert_eq in E2.
    change (execute_insert new (after_others env i w) = (r2, w2')) in E2.
    rewrite Hexec in E2. injection E2 as <- <-. destruct H as [-> ->].
    split; [reflexivity|]. split; [by intros p ?%elem_of_nil|].
    intros p Hp Hin.
    destruct (execute_insert_fresh_ids _ _ _ _ Hexec p Hp) as [Hold|Hnew].
    + simpl in Hold. rewrite Htxn in Hold. by apply elem_of_nil in Hold.
    + apply Hnew. by apply list_elem_of_fmap_2.
  - destruct IH as (IH & Hkept & Hgone); [reflexivity|].
    destruct (loop (i :: later) ex n w) as [res w''] eqn:E.
    apply batch_loop_step in E as [(Hc' & _) | (_ & H)]; [congruence|].
    simpl in H. rewrite Hprep in H.
    destruct H as (r2 & w2' & E2 & H). rewrite staged_insert_eq in E2.
    change (execute_insert new (after_others env i w) = (r2, w2')) in E2.
    rewrite Hexec in E2. injection E2 as <- <-.
    change (loop later ex' n'
              (after_batch task_id
                 (processing_record int_ratio85 i (length (rows df)) n') w2)
            = (res, w'')) in H.
    pose proof IH as Hpre. apply batch_loop_prefix in Hpre.
    rewrite IH in H. injection H as <- <-.
    split; [reflexivity|]. split; [|exact Hgone].
    intros p [Hp|Hp]%elem_of_app; [|by apply Hkept].
    destruct Hpre as [more ->]. simpl.
    apply elem_of_app. left. apply elem_of_app. by right.
Qed.

(** *** Without other writers *)

Hypothesis no_writers : forall k, other_commits env k = [].

(** With the set of known SKUs in step with the table, the loop only appends
    rows, each one staged from a row of the frame under a SKU that was not
    known; it counts what it appends, never meets a conflict, and, run to
    its end, leaves every SKU of the frame in the table. *)
Lemma batch_loop_db starts : forall (ex : gset string) n w res w',
  txn w = [] -> ex = lower_skus (db w) ->
  loop starts ex n w = (res, w') ->
  exists new, db w' = db w ++ new /\
    Forall (fun p => (p_sku p ∉ ex) /\
                     exists r, r ∈ rows df /\
                               p = stored (p_id p) (staged_of (columns df) r)) new /\
    match res with
    | Return c =>
        c = (n + length new)%nat /\ txn w' = [] /\
        ((forall k, cancel_flag env k = false) ->
         forall i r, i ∈ starts -> r ∈ iloc (rows df) i (i + batch_size) ->
                     lower (row_sku r) ∈ lower_skus (db w'))
    | Raise e =>
        (e = KeyError "sku" /\ ("sku" ∉ columns df)) \/
        (e = KeyError "name" /\ ("name" ∉ columns df))
    end.
Proof.
  induction starts as [|i later IH]; intros ex n w res w' Htxn Hex H.
  - injection H as <- <-. exists []. rewrite app_nil_r.
    repeat split; auto. intros _ i r Hi. by apply elem_of_nil in Hi.
  - apply batch_loop_step in H as [(Hc & -> & ->) | (Hc & H)].
    + exists []. simpl. rewrite app_nil_r. repeat split; auto.
      intros Hno. by rewrite Hno in Hc.
    + simpl in H. rewrite no_writers in H. simpl in H.
      destruct (prepare_batch _ _ ex n) as [[[newp ex'] n']|e] eqn:Eprep.
      * apply prepare_batch_inv in Eprep
          as (Hn' & Hex' & Hnd & Hfresh & Hsrc & Hcov).
        destruct H as (r2 & w2 & E2 & H). rewrite staged_insert_eq in E2.
        destruct (execute_insert_ok newp
                    (mkWorld (db w) (txn w) (progress_store w) (published w)) Hnd)
          as [w2' Eok].
        { intros s Hs. simpl. rewrite Htxn, app_nil_r.
          destruct (proj1 (list_elem_of_fmap _ _ _) Hs) as (np & -> & Hnp).
          destruct (Hsrc np Hnp) as (r & _ & ->). simpl.
          apply fresh_lower_not_stored. rewrite <- Hex.
          apply (Hfresh (lower (row_sku r))).
          by apply (list_elem_of_fmap_2' _ _ _ _ Hnp). }
        rewrite Eok in E2. injection E2 as <- <-.
        apply execute_insert_inv in Eok as (Hd & _ & _ & ps & Hps & Hsk & Hf2).
        simpl in Hd, Hps. rewrite Htxn in Hps. simpl in Hps.
        assert (Hex3 : ex' = lower_skus (db w2' ++ txn w2')).
        { rewrite Hd, Hps, lower_skus_app, <- Hex, Hex'. f_equal.
          unfold lower_skus. rewrite Hsk. f_equal. symmetry.
          apply fmap_lower_fixed. intros s Hs.
          destruct (proj1 (list_elem_of_fmap _ _ _) Hs) as (np & -> & Hnp).
          destruct (Hsrc np Hnp) as (r & _ & ->). simpl. apply lower_idem. }
        apply IH in H as (new' & Hdb & Hall & Hres); [|reflexivity|exact Hex3].
        simpl in Hdb. rewrite Hd, Hps in Hdb.
        exists (ps ++ new'). rewrite Hdb, <- app_assoc. split; [reflexivity|].
        split.
        -- apply Forall_app. split.
           ++ apply Forall_forall. intros p Hp. split.
              ** apply Hfresh. rewrite <- Hsk. by apply list_elem_of_fmap_2.
              ** apply list_elem_of_lookup in Hp as [j Hj].
                 destruct (Forall2_lookup_l _ _ _ _ _ Hf2 Hj) as (np & Hnp & Hp).
                 apply list_elem_of_lookup_2 in Hnp.
                 destruct (Hsrc np Hnp) as (r & Hr & ->).
                 exists r. split; [by eapply elem_of_iloc | exact Hp].
           ++ eapply Forall_impl; [exact Hall|]. simpl.
              intros p [Hp Hr]. split; [|exact Hr]. rewrite Hex' in Hp. set_solver.
        -- destruct res as [c|e]; [|exact Hres].
           destruct Hres as (-> & Ht & Hcover).
           rewrite length_app, (Forall2_length _ _ _ Hf2). split; [lia|].
           split; [exact Ht|].
           intros Hno i' r [-> | Hi']%elem_of_cons Hr;
             [|rewrite app_assoc, <- Hdb; by eapply Hcover].
           rewrite app_assoc, lower_skus_app. apply elem_of_union_l.
           rewrite Hd, Hps in Hex3. rewrite <- Hex3. by apply Hcov.
      * destruct H as [-> ->]. exists []. simpl. rewrite app_nil_r.
        repeat split; auto. by eapply prepare_batch_raise.
Qed.

(** When every SKU of the frame is known, the loop stages nothing and leaves
    the table as it is. *)
Lemma batch_loop_known starts : forall (ex : gset string) n w,
  "sku" ∈ columns df ->
  (forall r, r ∈ rows df -> lower (row_sku r) ∈ ex) ->
  txn w = [] ->
  exists w', loop starts ex n w = (Return n, w') /\ db w' = db w /\ txn w' = [].
Proof.
  intros ex n w Hsku Hall. revert w.
  induction starts as [|i later IH]; intros w Htxn.
  - exists w. auto.
  - destruct (loop (i :: later) ex n w) as [res w'] eqn:E.
    apply batch_loop_step in E as [(_ & -> & ->) | (_ & H)].
    + eexists. split; [reflexivity|]. auto.
    + simpl in H. rewrite no_writers in H. simpl in H.
      rewrite prepare_batch_known in H; [|assumption|].
      2: { intros r Hr. apply Hall. by eapply elem_of_iloc. }
      destruct H as (r2 & w2 & [= <- <-] & H). simpl in H.
      rewrite Htxn, app_nil_r in H.
      match type of H with
      | loop later ex n ?w3 = _ => destruct (IH w3 eq_refl) as (w4 & E4 & Hd & Ht)
      end.
      rewrite E4 in H. injection H as <- <-.
      exists w4. auto.
Qed.

End LoopFacts.

(** ** Batches cover the frame *)

Lemma range_step_elem n step i :
  i ∈ range_step n step <->
  exists j, i = (j * step)%nat /\ (j < (n + step - 1) / step)%nat.
Proof.
  unfold range_step. rewrite list_elem_of_fmap. split.
  - intros (j & -> & Hj%elem_of_seq). exists j. split; [reflexivity|lia].
  - intros (j & -> & Hj). exists j. split; [reflexivity|].
    apply elem_of_seq. lia.
Qed.

(** Every row of the frame lies in the slice of one batch. *)
Lemma range_step_cover (l : list Row) step r :
  (0 < step)%nat -> r ∈ l ->
  exists i, i ∈ range_step (length l) step /\ r ∈ iloc l i (i + step).
Proof.
  intros Hstep [k Hk]%list_elem_of_lookup.
  pose proof (lookup_lt_Some _ _ _ Hk) as Hlt.
  pose proof (Nat.div_mod_eq k step) as Hdm.
  pose proof (Nat.mod_upper_bound k step ltac:(lia)) as Hmod.
  exists ((k / step) * step)%nat. split.
  - apply range_step_elem. exists (k / step)%nat. split; [reflexivity|].
    apply Nat.Div0.div_lt_upper_bound.
    apply Nat.lt_le_trans with (m := ((k / step + 1) * step)%nat); [lia|].
    transitivity (((length l + step - 1) / step) * step)%nat; [|lia].
    apply Nat.mul_le_mono_r.
    apply Nat.div_le_lower_bound; lia.
  - unfold iloc. apply list_elem_of_lookup. exists (k mod step)%nat.
    rewrite lookup_take_lt by lia. rewrite lookup_drop.
    rewrite <- Hk. f_equal. lia.
Qed.

(** The starts come in increasing order. *)
Lemma range_step_sorted n step : StronglySorted le (range_step n step).
Proof.
  unfold range_step. generalize ((n + step - 1) / step)%nat as m.
  generalize 0%nat as a. intros a m. revert a.
  induction m as [|m IH]; intros a; simpl; constructor.
  - apply IH.
  - apply Forall_forall. intros x (j & -> & Hj%elem_of_seq)%list_elem_of_fmap.
    apply Nat.mul_le_mono_r. lia.
Qed.

(** ** The whole import *)

Section ImportFacts.

Variable int_ratio85 : nat -> nat -> Z.
Variable env : Env.
Variable task_id : string.

Let import := import_products_from_csv int_ratio85 env task_id.

Lemma import_cases file w res w' :
  import file w = (res, w') ->
  import_run int_ratio85 env task_id file w res w'.
Proof.
  unfold import, import_products_from_csv, import_body, read_csv,
    _preprocess_dataframe, _get_existing_skus, publish, bind, lift, ret, raise.
  destruct file as [msg|df]; simpl.
  - intros [= <- <-]. exact (run_unreadable _ _ _ _ _ msg eq_refl).
  - case_bool_decide as Hsku; simpl.
    + destruct (sku_dtype df) eqn:Hdtype; simpl.
      2-4: rewrite <- (app_assoc (published w) [loading_record]
                         [preprocessing_record]);
           intros [= <- <-]; apply (run_not_text _ _ _ _ _ df eq_refl Hsku);
           by rewrite Hdtype.
      rewrite app_nil_r, <- app_assoc. simpl.
      fold (preprocessed df). fold (lower_skus (db w)).
      fold (started task_id w).
      destruct (_process_batches _ _ _ _ _ (started task_id w))
        as [[c0|e0] wl] eqn:E.
      * intros [= <- <-].
        exact (run_returned _ _ _ _ _ df c0 wl eq_refl Hsku Hdtype E).
      * intros [= <- <-].
        exact (run_raised _ _ _ _ _ df e0 wl eq_refl Hsku Hdtype E).
    + rewrite <- (app_assoc (published w) [loading_record]
                    [preprocessing_record]).
      intros [= <- <-].
      exact (run_no_sku _ _ _ _ _ df eq_refl Hsku).
Qed.

End ImportFacts.

(** ** What every run leaves behind *)

Section RunFacts.

Variable int_ratio85 : nat -> nat -> Z.
Variable env : Env.
Variable task_id : string.

(** Every run ends with one more record in the log, which is also the one
    the registry holds: the success record when the call returns, the error
    record of the exception when it raises.  The session is closed, and the
    table has only grown. *)
Lemma import_terminal file w res w' :
  import_products_from_csv int_ratio85 env task_id file w = (res, w') ->
  exists final,
    last (published w') = Some final /\
    progress_store w' !! task_id = Some final /\
    txn w' = [] /\
    db w `prefix_of` db w' /\
    match res with
    | Return r => final = completed_record (res_imported r)
    | Raise e => final = error_record e
    end.
Proof.
  intros H. apply import_cases in H.
  destruct H as [msg _|df _ _|df _ _ _|df c wl _ _ _ Hloop
                |df e wl _ _ _ Hloop];
    eexists; unfold ended; simpl;
    (split; [apply last_snoc|]);
    (split; [apply lookup_insert_eq|]);
    (split; [reflexivity|]); (split; [|reflexivity]); try done.
  all: apply batch_loop_prefix in Hloop; exact Hloop.
Qed.

End RunFacts.

(** ** Runs without other writers *)

Lemma elem_of_drop_duplicates_last (l : list Row) r :
  r ∈ drop_duplicates_last l -> r ∈ l.
Proof.
  induction l as [|x l IH]; simpl; [done|].
  case_bool_decide as Hdup; [by right; apply IH|].
  intros [-> | Hr]%elem_of_cons; [by left | by right; apply IH].
Qed.

Lemma elem_of_preprocessed (df : DataFrame) r :
  r ∈ rows (preprocessed df) ->
  exists r0, r0 ∈ rows df /\ r = normalize_sku r0.
Proof.
  simpl. intros (r0 & -> & Hr0)%list_elem_of_fmap.
  exists r0. split; [by apply elem_of_drop_duplicates_last | reflexivity].
Qed.

Section QuietRuns.

Variable int_ratio85 : nat -> nat -> Z.
Variable env : Env.
Variable task_id : string.

Hypothesis no_writers : forall k, other_commits env k = [].

(** The call, given what the loop does. *)
Lemma import_returned (e0 : Env) df w count wl :
  "sku" ∈ columns df -> sku_dtype df = Object ->
  _process_batches int_ratio85 e0 task_id (preprocessed df)
    (lower_skus (db w)) (started task_id w) = (Return count, wl) ->
  import_products_from_csv int_ratio85 e0 task_id (Parsed df) w
    = (Return (mkResult count (length (rows df))),
       ended task_id wl (completed_record count)).
Proof.
  intros Hsku Hdtype Hloop.
  destruct (import_products_from_csv int_ratio85 e0 task_id (Parsed df) w)
    as [res w'] eqn:E.
  apply import_cases in E.
  destruct E as [msg [=]|df' [= <-] Hno|df' [= <-] _ Hno
                |df' c wl' [= <-] _ _ Hloop'|df' e' wl' [= <-] _ _ Hloop'].
  - contradiction.
  - contradiction.
  - rewrite Hloop in Hloop'. by injection Hloop' as <- <-.
  - rewrite Hloop in Hloop'. discriminate.
Qed.

(** Without the column [name] the loop writes no row. *)
Lemma batch_loop_no_name df starts : forall (ex : gset string) n w res w',
  "name" ∉ columns df -> txn w = [] ->
  batch_loop int_ratio85 env task_id df starts ex n w = (res, w') ->
  db w' = db w /\ txn w' = [] /\ (forall c, res = Return c -> c = n).
Proof.
  induction starts as [|i later IH]; intros ex n w res w' Hname Htxn H.
  - injection H as <- <-. repeat split; auto. by intros c [= <-].
  - apply batch_loop_step in H as [(_ & -> & ->) | (_ & H)].
    + repeat split; auto. by intros c [= <-].
    + simpl in H. rewrite no_writers in H. simpl in H.
      pose proof (prepare_batch_no_name (columns df)
                    (iloc (rows df) i (i + batch_size)) Hname ex n) as Hprep.
      destruct (prepare_batch _ _ ex n) as [[[new ex'] n']|e].
      * destruct Hprep as (-> & -> & ->).
        destruct H as (r2 & w2 & [= <- <-] & H). simpl in H.
        rewrite Htxn, app_nil_r in H.
        apply IH in H as (Hd & Ht & Hc); auto.
      * destruct H as [-> ->]. simpl. repeat split; auto. discriminate.
Qed.

End QuietRuns.

(** ** Progress *)

Lemma exact_ratio85_nonneg x n : (0 <= exact_ratio85 x n)%Z.
Proof.
  unfold exact_ratio85. destruct n as [|n]; [by rewrite Z.div_0_r|].
  apply Z.div_pos; lia.
Qed.

Lemma exact_ratio85_mono x y n :
  (x <= y)%nat -> (exact_ratio85 x n <= exact_ratio85 y n)%Z.
Proof.
  intros H. unfold exact_ratio85.
  destruct n as [|n]; [by rewrite !Z.div_0_r|].
  apply Z.div_le_mono; lia.
Qed.

Lemma last_cons_snoc {A} (a x : A) (l : list A) :
  last (a :: l ++ [x]) = Some x.
Proof. change (a :: l ++ [x]) with ((a :: l) ++ [x]). apply last_snoc. Qed.

(** The running records of a whole log: the two of the start, then those of
    the loop. *)
Lemma running_frame_sorted (new : list JobRecord) (final : JobRecord) :
  completed final = true ->
  StronglySorted Z.le (progress <$> running new) ->
  (forall r, r ∈ new -> completed r = false -> (10 <= progress r)%Z) ->
  StronglySorted Z.le
    (progress <$> running (loading_record :: preprocessing_record
                             :: new ++ [final])).
Proof.
  intros Hfinal Hs Hlo. unfold running in *.
  rewrite !filter_cons_True by reflexivity.
  rewrite filter_app, filter_cons_False by (by rewrite Hfinal).
  rewrite filter_nil, app_nil_r, !fmap_cons.
  assert (Hall : Forall (Z.le 10)
                   (progress <$> filter (fun r => completed r = false) new)).
  { apply Forall_forall. intros p (r & -> & Hr)%list_elem_of_fmap.
    apply list_elem_of_filter in Hr as [Hrun Hr]. by apply Hlo. }
  constructor; [constructor; [exact Hs|exact Hall]|].
  constructor; [simpl; lia|].
  eapply Forall_impl; [exact Hall|]. simpl. intros. lia.
Qed.

(** * The claims *)

(** ** C1: de-duplication inside the file *)

(** C1.  De-duplication inside a file is to be last-write-wins on the
    normalized SKU.  [_preprocess_dataframe] drops duplicates before it
    normalizes, so ["sku-1"] and ["SKU-1 "] both survive, and the batch loop
    then keeps the first of the two: on the scenario of the specification the
    import counts 2 rows, as claimed, but persists [sku-1] with the name and
    description of the earlier row, ("A", "d1"), where the claim asks for those
    of the later one, ("B", "d2"). *)
Theorem scenario_keeps_first_occurrence :
  fst run_scenario = Return (mkResult 2 3) /\
  db (snd run_scenario) =
    [mkProduct 1 "A" "sku-1" "d1" true; mkProduct 2 "C" "sku-2" "d3" true] /\
  lower (strip "SKU-1 ") = lower (strip "sku-1").
Proof. vm_compute. repeat split. Qed.

(** ** C2: one terminal record *)

(** C2.  A job is to record exactly one terminal outcome, frozen once
    published.  On cancellation [_process_batches] publishes the cancelled
    record and returns the count like a finished loop;
    [import_products_from_csv] goes on and publishes the success record over
    it: the log holds two terminal records and the registry ends with
    "Completed! 0 products imported". *)
Theorem cancelled_record_is_overwritten :
  published (snd run_cancelled) =
    [loading_record; preprocessing_record; cancelled_record;
     completed_record 0] /\
  completed cancelled_record = true /\
  progress_store (snd run_cancelled) !! "job" = Some (completed_record 0) /\
  fst run_cancelled = Return (mkResult 0 3).
Proof. vm_compute. repeat split. Qed.

(** ** C3: a conflict reported by the write layer *)

(** C3 as stated fails: the job that loses the race for [sku-2] does not
    drop that row and go on.  The call raises, the registry ends with the
    error record of the exception, and the row [sku-1] of the same batch is
    not in the table either. *)
Lemma conflict_is_escalated :
  exists e,
    fst run_raced = Raise e /\
    progress_store (snd run_raced) !! "job" = Some (error_record e) /\
    error (error_record e) = Some true /\
    completed (error_record e) = true /\
    db (snd run_raced) = [mkProduct 1 "X" "sku-2" "dx" true].
Proof.
  exists (IntegrityError "products.sku"). vm_compute. repeat split.
Qed.

(** C3, amended.  If the write layer refuses the bulk insert of a batch with
    the exception [e], the job stops there.  The call raises [e] again; the
    terminal record of the job is the failure record: progress 0, ["Error: "]
    and the text of [e], completed, with the key [error].  The table is the
    table as it was committed when the batch was refused: the rows of the
    refused batch that had gone through are rolled back, and the rows that
    were in the table and those of the batches committed before stay. *)
Theorem conflict_fails_the_job (int_ratio85 : nat -> nat -> Z) (env : Env)
    (task_id : string) (df : DataFrame) (w : World) (e : Exn) (wr : World)
    (kept : list Product) :
  "sku" ∈ columns df -> sku_dtype df = Object ->
  conflict_in int_ratio85 env task_id (preprocessed df)
    (range_step (length (rows (preprocessed df))) batch_size)
    (lower_skus (db w)) 0 (started task_id w) e wr kept ->
  exists w',
    import_products_from_csv int_ratio85 env task_id (Parsed df) w
      = (Raise e, w') /\
    progress_store w' !! task_id = Some (error_record e) /\
    last (published w') = Some (error_record e) /\
    progress (error_record e) = 0%Z /\
    status (error_record e) = "Error: " +:+ str_exn e /\
    completed (error_record e) = true /\
    error (error_record e) = Some true /\
    db w' = db wr /\ txn w' = [] /\
    (forall p, p ∈ txn wr -> p ∉ db w') /\
    db w `prefix_of` db w' /\
    (forall p, p ∈ kept -> p ∈ db w').
Proof.
  intros Hsku Hdtype Hconf.
  apply conflict_raises in Hconf as (Hloop & Hkept & Hgone); [|reflexivity].
  destruct (import_products_from_csv int_ratio85 env task_id (Parsed df) w)
    as [res w'] eqn:E.
  pose proof (import_terminal _ _ _ _ _ _ _ E) as (final & Hl & Hs & Ht & Hp & Hf).
  apply import_cases in E.
  destruct E as [msg [=]|df' [= <-] Hno|df' [= <-] _ Hno
                |df' c wl' [= <-] _ _ Hloop'|df' e' wl' [= <-] _ _ Hloop'].
  - contradiction.
  - contradiction.
  - unfold _process_batches in Hloop'. rewrite Hloop in Hloop'. discriminate.
  - unfold _process_batches in Hloop'. rewrite Hloop in Hloop'.
    injection Hloop' as <- <-. subst final.
    eexists. split; [reflexivity|]. simpl. repeat split; auto.
Qed.

Lemma conflict_fails_the_job_witness :
  exists e wr kept w',
    conflict_in exact_ratio85 racing "job" (preprocessed scenario_frame)
      [0%nat] (lower_skus []) 0 (started "job" (world_of [])) e wr kept /\
    import_products_from_csv exact_ratio85 racing "job" (Parsed scenario_frame)
      (world_of [])
      = (Raise e, w') /\
    progress_store w' !! "job" = Some (error_record e) /\
    last (published w') = Some (error_record e) /\
    progress (error_record e) = 0%Z /\
    status (error_record e) = "Error: " +:+ str_exn e /\
    completed (error_record e) = true /\
    error (error_record e) = Some true /\
    db w' = db wr /\ txn w' = [] /\
    (forall p, p ∈ txn wr -> p ∉ db w') /\
    db (world_of []) `prefix_of` db w' /\
    (forall p, p ∈ kept -> p ∈ db w').
Proof.
  exists (IntegrityError "products.sku"),
    (mkWorld [mkProduct 1 "X" "sku-2" "dx" true]
             [mkProduct 2 "A" "sku-1" "d1" true]
             (progress_store (started "job" (world_of [])))
             (published (started "job" (world_of [])))),
    [].
  assert (Hconf :
    conflict_in exact_ratio85 racing "job" (preprocessed scenario_frame)
      [0%nat] (lower_skus []) 0 (started "job" (world_of []))
      (IntegrityError "products.sku")
      (mkWorld [mkProduct 1 "X" "sku-2" "dx" true]
               [mkProduct 2 "A" "sku-1" "d1" true]
               (progress_store (started "job" (world_of [])))
               (published (started "job" (world_of []))))
      []).
  { eapply conflict_here; vm_compute; reflexivity. }
  destruct (conflict_fails_the_job exact_ratio85 racing "job" scenario_frame
              (world_of []) (IntegrityError "products.sku")
              (mkWorld [mkProduct 1 "X" "sku-2" "dx" true]
                       [mkProduct 2 "A" "sku-1" "d1" true]
                       (progress_store (started "job" (world_of [])))
                       (published (started "job" (world_of []))))
              []) as [w' H].
  - vm_compute. repeat constructor.
  - reflexivity.
  - exact Hconf.
  - exists w'. split; [exact Hconf|exact H].
Defined.

(** ** C4: the progress percentages *)

(** C4 as stated fails: the terminal record of a failed job carries progress
    0, below the 5 published before it. *)
Lemma failure_resets_progress :
  progress <$> published (snd run_unreadable_file) = [5%Z; 0%Z] /\
  ~ StronglySorted Z.le (progress <$> published (snd run_unreadable_file)).
Proof.
  split; [reflexivity|].
  change (progress <$> published (snd run_unreadable_file)) with [5%Z; 0%Z].
  intros H. apply StronglySorted_inv in H as [_ H].
  apply Forall_inv in H. lia.
Qed.

Section Progress.

Variable int_ratio85 : nat -> nat -> Z.

(** What the proofs use of [int(x / n * 85)]: it is not negative and it does
    not decrease when [x] grows.  Division by a positive number,
    multiplication by 85 and truncation each keep the order, rounded or
    not. *)
Hypothesis ratio_nonneg : forall x n, (0 <= int_ratio85 x n)%Z.
Hypothesis ratio_mono :
  forall x y n, (x <= y)%nat -> (int_ratio85 x n <= int_ratio85 y n)%Z.

Lemma processing_progress_mono total i j c d :
  (i <= j)%nat ->
  (progress (processing_record int_ratio85 i total c)
   <= progress (processing_record int_ratio85 j total d))%Z.
Proof.
  intros Hij. simpl. apply Z.min_le_compat_l, Z.add_le_mono_r, ratio_mono. lia.
Qed.

Lemma processing_progress_bounds total i c :
  (10 <= progress (processing_record int_ratio85 i total c) <= 95)%Z.
Proof.
  simpl. pose proof (ratio_nonneg (i + batch_size) total). lia.
Qed.

(** The records of the loop: a terminal one is the cancellation record; the
    others have progress between [lo] and 95, in increasing order. *)
Lemma loop_trace_progress total starts new :
  loop_trace int_ratio85 total starts new ->
  StronglySorted le starts ->
  forall lo,
    (forall i c, i ∈ starts ->
                 (lo <= progress (processing_record int_ratio85 i total c))%Z) ->
    StronglySorted Z.le (progress <$> running new) /\
    Forall (fun r => if completed r then r = cancelled_record
                     else (lo <= progress r <= 95)%Z) new.
Proof.
  induction 1 as [starts|i later|i later c new Hnew IH]; intros Hsorted lo Hlo.
  - split; constructor.
  - split; [constructor|]. by repeat constructor.
  - apply StronglySorted_inv in Hsorted as [Hlater Hle].
    destruct (IH Hlater (progress (processing_record int_ratio85 i total c)))
      as [Hs Hall].
    { intros j d Hj. apply processing_progress_mono.
      rewrite Forall_forall in Hle. by apply Hle. }
    unfold running in *. rewrite filter_cons_True by reflexivity.
    rewrite fmap_cons. split.
    + constructor; [exact Hs|].
      apply Forall_forall. intros p (r & -> & Hr)%list_elem_of_fmap.
      apply list_elem_of_filter in Hr as [Hrun Hr].
      rewrite Forall_forall in Hall. apply Hall in Hr.
      rewrite Hrun in Hr. lia.
    + constructor.
      * simpl. split; [|apply Z.le_min_l].
        apply (Hlo i c). by left.
      * eapply Forall_impl; [exact Hall|]. simpl. intros r.
        destruct (completed r); [done|].
        pose proof (Hlo i c ltac:(by left)). simpl in *. lia.
Qed.

(** C4, amended.  In the records a job publishes, those published before
    completion have progress at most 95, in non-decreasing order; a terminal
    record that reports a failure or a cancellation has progress 0; and
    progress is 100 only in the success record, which then is the last record
    of a call that returns. *)
Theorem running_progress_is_monotone (env : Env) (task_id : string)
    (file : CsvFile) (w : World) (res : Result ImportResult) (w' : World) :
  import_products_from_csv int_ratio85 env task_id file w = (res, w') ->
  exists new,
    published w' = published w ++ new /\
    StronglySorted Z.le (progress <$> running new) /\
    (forall r, r ∈ new -> completed r = false -> (progress r <= 95)%Z) /\
    (forall r, r ∈ new -> completed r = true ->
               error r = Some true \/ cancelled r = Some true ->
               progress r = 0%Z) /\
    (forall r, r ∈ new -> progress r = 100%Z ->
               exists x, res = Return x /\
                         r = completed_record (res_imported x) /\
                         last new = Some r).
Proof.
  intros H. apply import_cases in H.
  destruct H as [msg _|df _ _|df _ _ _|df c wl _ _ _ Hloop
                |df e wl _ _ _ Hloop].
  - exists [loading_record; error_record (ReadError msg)].
    unfold ended. simpl. rewrite <- app_assoc. split; [reflexivity|].
    split; [by repeat constructor|].
    repeat split; intros r Hr; set_unfold in Hr;
      destruct Hr as [->|[->|[]]]; simpl; intros; try done; lia.
  - exists [loading_record; preprocessing_record;
            error_record (KeyErrorIndex ["sku"])].
    unfold ended, started. simpl. rewrite <- app_assoc. split; [reflexivity|].
    split; [repeat constructor; lia|].
    repeat split; intros r Hr; set_unfold in Hr;
      destruct Hr as [->|[->|[->|[]]]]; simpl; intros; try done; lia.
  - exists [loading_record; preprocessing_record; error_record not_text].
    unfold ended, started. simpl. rewrite <- app_assoc. split; [reflexivity|].
    split; [repeat constructor; lia|].
    repeat split; intros r Hr; set_unfold in Hr;
      destruct Hr as [->|[->|[->|[]]]]; simpl; intros; try done; lia.
  - apply batch_loop_trace in Hloop as (new & Hpub & Hshape).
    destruct (loop_trace_progress _ _ _ Hshape (range_step_sorted _ _) 10%Z)
      as [Hs Hall].
    { intros i c' _. apply processing_progress_bounds. }
    rewrite Forall_forall in Hall.
    exists ([loading_record; preprocessing_record] ++ new ++ [completed_record c]).
    unfold ended. simpl. rewrite Hpub. simpl.
    rewrite <- !app_assoc. split; [reflexivity|].
    split.
    { apply running_frame_sorted; [reflexivity|exact Hs|].
      intros r Hr Hrun. apply Hall in Hr. rewrite Hrun in Hr. lia. }
    repeat split; intros r Hr; set_unfold in Hr.
    + destruct Hr as [->|[->|[Hr|[->|[]]]]]; simpl; intros; try done; try lia.
      apply Hall in Hr. destruct (completed r); [done|lia].
    + destruct Hr as [->|[->|[Hr|[->|[]]]]]; simpl; intros Hc Hk; try done.
      * apply Hall in Hr. rewrite Hc in Hr. by subst r.
      * by destruct Hk.
    + destruct Hr as [->|[->|[Hr|[->|[]]]]]; simpl; intros Hp; try done.
      * apply Hall in Hr. destruct (completed r); [by subst r|lia].
      * eexists. split; [reflexivity|]. split; [reflexivity|].
        apply last_cons_snoc.
  - apply batch_loop_trace in Hloop as (new & Hpub & Hshape).
    destruct (loop_trace_progress _ _ _ Hshape (range_step_sorted _ _) 10%Z)
      as [Hs Hall].
    { intros i c' _. apply processing_progress_bounds. }
    rewrite Forall_forall in Hall.
    exists ([loading_record; preprocessing_record] ++ new ++ [error_record e]).
    unfold ended. simpl. rewrite Hpub. simpl.
    rewrite <- !app_assoc. split; [reflexivity|].
    split.
    { apply running_frame_sorted; [reflexivity|exact Hs|].
      intros r Hr Hrun. apply Hall in Hr. rewrite Hrun in Hr. lia. }
    repeat split; intros r Hr; set_unfold in Hr.
    + destruct Hr as [->|[->|[Hr|[->|[]]]]]; simpl; intros; try done; try lia.
      apply Hall in Hr. destruct (completed r); [done|lia].
    + destruct Hr as [->|[->|[Hr|[->|[]]]]]; simpl; intros Hc Hk; try done.
      apply Hall in Hr. rewrite Hc in Hr. by subst r.
    + destruct Hr as [->|[->|[Hr|[->|[]]]]]; simpl; intros Hp; try done.
      apply Hall in Hr. destruct (completed r); [by subst r|lia].
Qed.

End Progress.

Lemma running_progress_is_monotone_witness :
  exists new,
    published (snd run_scenario) = published (world_of []) ++ new /\
    StronglySorted Z.le (progress <$> running new) /\
    (forall r, r ∈ new -> completed r = false -> (progress r <= 95)%Z) /\
    (forall r, r ∈ new -> completed r = true ->
               error r = Some true \/ cancelled r = Some true ->
               progress r = 0%Z) /\
    (forall r, r ∈ new -> progress r = 100%Z ->
               exists x, fst run_scenario = Return x /\
                         r = completed_record (res_imported x) /\
                         last new = Some r).
Proof.
  apply (running_progress_is_monotone exact_ratio85 exact_ratio85_nonneg
           exact_ratio85_mono quiet "job" scenario (world_of [])).
  vm_compute. reflexivity.
Defined.

(** ** C5: normalization and the whole import *)

(** C5.  Importing a file with lowercase, trimmed SKUs and importing its
    variant in mixed case and with surrounding blanks are to give the same
    count and the same table.  The two files below differ only so, and both
    imports count 1 row, but the first persists [sku-1] as ("B", "d2") and the
    second as ("A", "d1"): the duplicates are dropped before the SKUs are
    normalized (the defect of C1). *)
Theorem mixed_case_variant_differs :
  normalize_sku <$> [mkRow "A" "sku-1" "d1"; mkRow "B" "SKU-1 " "d2"]
    = [mkRow "A" "sku-1" "d1"; mkRow "B" "sku-1" "d2"] /\
  (let '(res, w) := import_products_from_csv exact_ratio85 quiet "job"
                      plain_file (world_of []) in
   res = Return (mkResult 1 2) /\
   db w = [mkProduct 1 "B" "sku-1" "d2" true]) /\
  (let '(res, w) := import_products_from_csv exact_ratio85 quiet "job"
                      mixed_file (world_of []) in
   res = Return (mkResult 1 2) /\
   db w = [mkProduct 1 "A" "sku-1" "d1" true]).
Proof. vm_compute. repeat split. Qed.

(** ** C6: importing the same file again *)

(** C6.  When an import, run with no cancellation request and no other
    writer, has returned, importing the same file again into the table it
    left returns too, counts 0 rows and leaves the table as it is, whether or
    not the second run is cancelled on its way. *)
Theorem second_import_adds_nothing (int_ratio85 : nat -> nat -> Z)
    (task_id task_id' : string) (cancel' : nat -> bool) (file : CsvFile)
    (w : World) (r1 : ImportResult) (w1 : World) :
  import_products_from_csv int_ratio85 quiet task_id file w = (Return r1, w1) ->
  exists r2 w2,
    import_products_from_csv int_ratio85 (mkEnv cancel' (fun _ => []))
      task_id' file w1 = (Return r2, w2) /\
    res_imported r2 = 0%nat /\
    db w2 = db w1.
Proof.
  intros H. apply import_cases in H.
  inversion H as [| | |df c wl Hf Hsku Hdtype Hloop Hres Hw|]; subst. clear H.
  apply batch_loop_db in Hloop as (new & Hdb & _ & _ & _ & Hcover); [|done..].
  assert (Hall : forall r, r ∈ rows (preprocessed df) ->
                           lower (row_sku r) ∈ lower_skus (db wl)).
  { intros r Hr.
    destruct (range_step_cover _ batch_size r batch_size_pos Hr) as (i & Hi & Hri).
    by apply (Hcover (fun _ => eq_refl) i r). }
  destruct (batch_loop_known int_ratio85 (mkEnv cancel' (fun _ => [])) task_id'
              (preprocessed df) (fun _ => eq_refl)
              (range_step (length (rows (preprocessed df))) batch_size)
              (lower_skus (db wl)) 0
              (started task_id' (ended task_id wl (completed_record c)))
              Hsku Hall eq_refl)
    as (w2 & Hloop2 & Hd2 & Ht2).
  eexists _, _. split; [|split].
  - apply import_returned; [exact Hsku|exact Hdtype|]. exact Hloop2.
  - reflexivity.
  - simpl. exact Hd2.
Qed.

Lemma second_import_adds_nothing_witness :
  exists r2 w2,
    import_products_from_csv exact_ratio85 (mkEnv (fun _ => false) (fun _ => []))
      "again" scenario (snd run_scenario) = (Return r2, w2) /\
    res_imported r2 = 0%nat /\
    db w2 = db (snd run_scenario).
Proof.
  apply (second_import_adds_nothing exact_ratio85 "job" "again"
           (fun _ => false) scenario (world_of []) (mkResult 2 3)).
  vm_compute. reflexivity.
Defined.

(** ** C7: rows that are in the table already *)

(** C7.  A file row whose normalized SKU is the normalized SKU of a row of
    the table is to be skipped and not counted.  The import compares with the
    stored SKUs lowercased and not trimmed: the row [" abc "] of the table,
    as [create_product] stores it, and the file row ["abc"] have the same
    normalized SKU, and yet the file row is inserted and counted. *)
Lemma untrimmed_row_is_not_matched :
  create_product "Old" " ABC " "" true (world_of [])
    = (Return (mkProduct 1 "Old" " abc " "" true),
       world_of stored_with_blanks) /\
  lower (strip " abc ") = lower (strip "abc") /\
  fst run_over_blanks = Return (mkResult 1 1) /\
  db (snd run_over_blanks)
    = [mkProduct 1 "Old" " abc " "" true; mkProduct 2 "New" "abc" "d" true].
Proof. vm_compute. repeat split. Qed.

(** ** C8: input errors *)

(** C8 as stated fails: the exception of an unreadable file is raised again
    by the [except] block and leaves [import_products_from_csv]. *)
Lemma input_error_is_raised_again :
  fst run_unreadable_file = Raise (ReadError "No columns to parse from file") /\
  ~ (exists x, fst run_unreadable_file = Return x).
Proof.
  split; [reflexivity|]. intros [x Hx]. vm_compute in Hx. discriminate.
Qed.

(** C8, amended.  When the file cannot be read or has no column [sku], the
    job ends at once in the failure record, whose status is "Error: " and the
    text of the exception; no batch has been run, no row is written, and the
    exception is raised again to the caller.  When the column [name] is the
    one missing, a run beside which no other writer commits writes no row
    either; it returns with count 0 when no row is new, and otherwise raises
    with the failure record as its terminal record. *)
Theorem input_error_fails_the_job (int_ratio85 : nat -> nat -> Z) (env : Env)
    (task_id : string) (file : CsvFile) (w : World) :
  (input_error file ->
   exists e w' before,
     import_products_from_csv int_ratio85 env task_id file w = (Raise e, w') /\
     db w' = db w /\ txn w' = [] /\
     progress_store w' !! task_id = Some (error_record e) /\
     published w' = published w ++ before ++ [error_record e] /\
     (before = [loading_record] \/
      before = [loading_record; preprocessing_record]) /\
     status (error_record e) = "Error: " +:+ str_exn e /\
     completed (error_record e) = true) /\
  (forall df res w',
     file = Parsed df -> "name" ∉ columns df ->
     (forall k, other_commits env k = []) ->
     import_products_from_csv int_ratio85 env task_id file w = (res, w') ->
     db w' = db w /\
     match res with
     | Return x => res_imported x = 0%nat
     | Raise e => progress_store w' !! task_id = Some (error_record e)
     end).
Proof.
  split.
  - intros Herr.
    destruct (import_products_from_csv int_ratio85 env task_id file w)
      as [res w'] eqn:E.
    apply import_cases in E.
    destruct E as [msg Hf|df Hf Hno|df Hf Hsku Hno|df c wl Hf Hsku Hdtype Hloop
                  |df e wl Hf Hsku Hdtype Hloop].
    + eexists (ReadError msg), _, [loading_record]. unfold ended. simpl.
      rewrite <- app_assoc. repeat split; auto. apply lookup_insert_eq.
    + eexists (KeyErrorIndex ["sku"]), _,
        [loading_record; preprocessing_record].
      unfold ended, started. simpl.
      rewrite <- app_assoc. repeat split; auto. apply lookup_insert_eq.
    + subst file. simpl in Herr. contradiction.
    + subst file. simpl in Herr. contradiction.
    + subst file. simpl in Herr. contradiction.
  - intros df res w' Hf Hname Hquiet H.
    pose proof (import_terminal _ _ _ _ _ _ _ H) as (final & _ & Hs & _ & _ & Hfin).
    apply import_cases in H.
    destruct H as [msg Hf'|df' Hf' Hno|df' Hf' Hsku Hno
                  |df' c wl Hf' Hsku Hdtype Hloop
                  |df' e wl Hf' Hsku Hdtype Hloop].
    + congruence.
    + simpl. split; [reflexivity|]. by subst final.
    + simpl. split; [reflexivity|]. by subst final.
    + rewrite Hf in Hf'. injection Hf' as <-.
      apply batch_loop_no_name in Hloop as (Hd & _ & Hc); [|done..].
      simpl. split; [exact Hd|]. by apply Hc.
    + rewrite Hf in Hf'. injection Hf' as <-.
      apply batch_loop_no_name in Hloop as (Hd & _ & _); [|done..].
      simpl. split; [exact Hd|]. by subst final.
Qed.

Lemma input_error_fails_the_job_witness :
  (exists e w' before,
     import_products_from_csv exact_ratio85 quiet "job"
       (Unreadable "No columns to parse from file") (world_of [])
       = (Raise e, w') /\
     db w' = db (world_of []) /\ txn w' = [] /\
     progress_store w' !! "job" = Some (error_record e) /\
     published w' = published (world_of []) ++ before ++ [error_record e] /\
     (before = [loading_record] \/
      before = [loading_record; preprocessing_record]) /\
     status (error_record e) = "Error: " +:+ str_exn e /\
     completed (error_record e) = true) /\
  (let run := import_products_from_csv exact_ratio85 quiet "job"
                (Parsed frame_without_name) (world_of []) in
   db (snd run) = db (world_of []) /\
   match fst run with
   | Return x => res_imported x = 0%nat
   | Raise e => progress_store (snd run) !! "job" = Some (error_record e)
   end).
Proof.
  split.
  - apply (proj1 (input_error_fails_the_job exact_ratio85 quiet "job"
                    (Unreadable "No columns to parse from file") (world_of []))).
    simpl. exact I.
  - apply (proj2 (input_error_fails_the_job exact_ratio85 quiet "job"
                    (Parsed frame_without_name) (world_of []))
             frame_without_name).
    + reflexivity.
    + intros H. simpl in H.
      repeat (apply elem_of_cons in H as [H|H]; [discriminate|]).
      by apply elem_of_nil in H.
    + reflexivity.
    + apply surjective_pairing.
Defined.


(** ** C9: the SKU as stored *)

(** C9.  Every storage path is to persist the SKU trimmed and lowercased.
    The import does (it strips in [_preprocess_dataframe]); [create_product]
    only lowercases: for the SKU [" ABC "] it stores [" abc "], not ["abc"]. *)
Theorem create_product_keeps_blanks :
  create_product "Widget" " ABC " "" true (world_of [])
    = (Return (mkProduct 1 "Widget" " abc " "" true),
       world_of [mkProduct 1 "Widget" " abc " "" true]) /\
  lower (strip " ABC ") = "abc".
Proof. vm_compute. repeat split. Qed.

(** ** C10: deleting a product *)

(** C10.  [delete_product] on an identifier no row has returns [False] and
    leaves the table as it is; on an identifier some row has it returns
    [True], and afterwards the table holds exactly the rows of before whose
    identifier is another one, unchanged and in their order. *)
Theorem delete_product_spec (product_id : Z) (t : list Product)
    (store : gmap string JobRecord) (log : list JobRecord) :
  ((forall p, p ∈ t -> p_id p ≠ product_id) ->
   delete_product product_id (mkWorld t [] store log)
     = (Return false, mkWorld t [] store log)) /\
  ((exists p, p ∈ t /\ p_id p = product_id) ->
   exists t',
     delete_product product_id (mkWorld t [] store log)
       = (Return true, mkWorld t' [] store log) /\
     t' = filter (fun p => p_id p ≠ product_id) t /\
     (forall p, p ∈ t' <-> p ∈ t /\ p_id p ≠ product_id)).
Proof.
  unfold delete_product, UnitOfWork.in_session, UnitOfWork.first,
    UnitOfWork.bind. simpl.
  rewrite app_nil_r. split.
  - intros Hnone.
    destruct (find _ t) as [p|] eqn:Hfind; [|reflexivity].
    apply find_some in Hfind as [Hin Hid].
    apply bool_decide_eq_true in Hid. apply list_elem_of_In in Hin.
    by apply Hnone in Hin.
  - intros (p & Hin & Hid).
    destruct (find _ t) as [q|] eqn:Hfind.
    + apply find_some in Hfind as [_ Hq]. apply bool_decide_eq_true in Hq.
      unfold UnitOfWork.delete, UnitOfWork.commit, UnitOfWork.flush,
        UnitOfWork.ret, UnitOfWork.sql_delete. simpl.
      rewrite Hq. eexists. split; [reflexivity|].
      split; [reflexivity|].
      intros x. rewrite list_elem_of_filter. tauto.
    + exfalso. apply list_elem_of_In in Hin.
      apply (find_none _ _ Hfind) in Hin.
      apply bool_decide_eq_false in Hin. contradiction.
Qed.

Lemma delete_product_spec_witness :
  delete_product 7 (world_of [mkProduct 1 "a" "s1" "" true])
    = (Return false, world_of [mkProduct 1 "a" "s1" "" true]) /\
  exists t',
    delete_product 1
      (world_of [mkProduct 1 "a" "s1" "" true; mkProduct 2 "b" "s2" "" true])
      = (Return true, world_of t') /\
    t' = filter (fun p => p_id p ≠ 1%Z)
           [mkProduct 1 "a" "s1" "" true; mkProduct 2 "b" "s2" "" true] /\
    (forall p, p ∈ t' <->
       p ∈ [mkProduct 1 "a" "s1" "" true; mkProduct 2 "b" "s2" "" true] /\
       p_id p ≠ 1%Z).
Proof.
  split.
  - apply (proj1 (delete_product_spec 7 [mkProduct 1 "a" "s1" "" true] ∅ [])).
    intros p Hp. apply list_elem_of_singleton in Hp. subst p. simpl. lia.
  - apply (proj2 (delete_product_spec 1
             [mkProduct 1 "a" "s1" "" true; mkProduct 2 "b" "s2" "" true] ∅ [])).
    exists (mkProduct 1 "a" "s1" "" true). split; [by left | reflexivity].
Defined.

(** * Further properties *)

(** ** Patterns *)

Lemma like_percent pat s :
  like (String "%" pat) s
  = like pat s || match s with
                  | EmptyString => false
                  | String _ s' => like (String "%" pat) s'
                  end.
Proof. by destruct s. Qed.

Lemma like_underscore pat s :
  like (String "_" pat) s
  = match s with EmptyString => false | String _ s' => like pat s' end.
Proof. by destruct s. Qed.

Lemma like_char c pat s :
  Ascii.eqb c "%" = false -> Ascii.eqb c "_" = false ->
  like (String c pat) s
  = match s with
    | EmptyString => false
    | String d s' => Ascii.eqb c d && like pat s'
    end.
Proof. intros H1 H2. simpl. rewrite H1, H2. by destruct s. Qed.

(** A pattern matches the text it is spelled with: the wild cards stand for
    themselves too. *)
Lemma like_self s : like s s = true.
Proof.
  induction s as [|c s IH]; [reflexivity|].
  destruct (Ascii.eqb c "%") eqn:E1.
  - apply Ascii.eqb_eq in E1 as ->.
    rewrite like_percent, (like_percent s s), IH. apply orb_true_r.
  - destruct (Ascii.eqb c "_") eqn:E2.
    + apply Ascii.eqb_eq in E2 as ->. by rewrite like_underscore.
    + rewrite like_char by assumption. by rewrite Ascii.eqb_refl.
Qed.

Lemma like_any_tail post : like "%" post = true.
Proof.
  induction post as [|c post IH]; [reflexivity|].
  rewrite like_percent, IH. apply orb_true_r.
Qed.

Lemma string_app_cons c s t : String c s +:+ t = String c (s +:+ t).
Proof. reflexivity. Qed.

Lemma like_prefix s post : like (s +:+ "%") (s +:+ post) = true.
Proof.
  induction s as [|c s IH]; [apply like_any_tail|].
  rewrite !string_app_cons.
  destruct (Ascii.eqb c "%") eqn:E1.
  - apply Ascii.eqb_eq in E1 as ->.
    rewrite like_percent, (like_percent _ (s +:+ post)), IH. apply orb_true_r.
  - destruct (Ascii.eqb c "_") eqn:E2.
    + apply Ascii.eqb_eq in E2 as ->. by rewrite like_underscore.
    + rewrite like_char by assumption. by rewrite Ascii.eqb_refl.
Qed.

Lemma like_skip pat pre s :
  like (String "%" pat) s = true -> like (String "%" pat) (pre +:+ s) = true.
Proof.
  intros H. induction pre as [|c pre IH]; [exact H|].
  rewrite string_app_cons, like_percent, IH. apply orb_true_r.
Qed.

(** [%s%] matches every text that contains [s]. *)
Lemma like_contains s pre post :
  like ("%" +:+ s +:+ "%") (pre +:+ s +:+ post) = true.
Proof.
  change ("%" +:+ s +:+ "%") with (String "%" (s +:+ "%")).
  apply like_skip. by rewrite like_percent, like_prefix.
Qed.

Lemma lower_app a b : lower (a +:+ b) = lower a +:+ lower b.
Proof. induction a as [|c a IH]; simpl; [reflexivity|]. by rewrite IH. Qed.

Lemma ilike_same_lower column pattern :
  lower column = lower pattern -> ilike column pattern = true.
Proof. intros H. unfold ilike. rewrite H. apply like_self. Qed.

Lemma ilike_contains column s pre post :
  lower column = pre +:+ lower s +:+ post ->
  ilike column ("%" +:+ s +:+ "%") = true.
Proof.
  intros H. unfold ilike. rewrite H, !lower_app. apply like_contains.
Qed.

(** ** Keys *)

Lemma next_id_positive (t : list Product) : (0 < next_id t)%Z.
Proof.
  unfold next_id.
  assert (0 <= foldr Z.max 0 (p_id <$> t))%Z; [|lia].
  induction t as [|q t IH]; [done|]. rewrite fmap_cons. simpl. lia.
Qed.

Lemma filter_all {A} (P : A -> Prop) `{forall x, Decision (P x)} (l : list A) :
  (forall x, x ∈ l -> P x) -> filter P l = l.
Proof.
  induction l as [|x l IH]; intros Hall; [reflexivity|].
  rewrite filter_cons_True by (apply Hall; by left).
  f_equal. apply IH. intros y Hy. apply Hall. by right.
Qed.

Lemma find_none_elem (f : Product -> bool) (t : list Product) :
  find f t = None <-> forall q, q ∈ t -> f q = false.
Proof.
  split.
  - intros H q Hq. apply list_elem_of_In in Hq. by apply (find_none _ _ H).
  - intros H. destruct (find f t) as [q|] eqn:E; [|reflexivity].
    apply find_some in E as [Hin Hq]. apply list_elem_of_In in Hin.
    apply H in Hin. congruence.
Qed.

Lemma find_some_elem (f : Product -> bool) (t : list Product) q :
  find f t = Some q -> q ∈ t /\ f q = true.
Proof. intros [Hin Hq]%find_some. by apply list_elem_of_In in Hin. Qed.

(** A SKU that no stored SKU matches as a pattern is new, also up to letter
    case. *)
Lemma unmatched_is_fresh (t : list Product) sku :
  (forall q, q ∈ t -> ilike (p_sku q) sku = false) ->
  lower sku ∉ (lower <$> skus t).
Proof.
  intros Hnone (s & Heq & (q & -> & Hq)%list_elem_of_fmap)%list_elem_of_fmap.
  apply Hnone in Hq. rewrite ilike_same_lower in Hq; [discriminate|].
  by symmetry.
Qed.

Lemma lower_fresh_is_fresh (t : list Product) s :
  lower s ∉ (lower <$> skus t) -> lower s ∉ skus t.
Proof.
  intros Hfresh Hin. apply Hfresh.
  rewrite <- (lower_idem s). by apply list_elem_of_fmap_2.
Qed.

(** ** create_product *)

(** [create_product] has two outcomes.  When a stored SKU matches the new one
    as a case-blind pattern it raises [ValueError] and the table stays as it
    is.  Otherwise it appends one row, which is the product it returns: the
    id is one nobody has, the SKU is the lowercased argument, the other
    fields are the arguments.  The write layer never refuses the row. *)
Lemma create_product_outcome (name sku description : string)
    (active : bool) (t : list Product) (store : gmap string JobRecord)
    (log : list JobRecord) :
  let w := mkWorld t [] store log in
  let p := mkProduct (next_id t) name (lower sku) description active in
  ((exists q, q ∈ t /\ ilike (p_sku q) sku = true) /\
   create_product name sku description active w = (Raise (sku_taken sku), w))
  \/
  ((forall q, q ∈ t -> ilike (p_sku q) sku = false) /\
   create_product name sku description active w
     = (Return p, mkWorld (t ++ [p]) [] store log) /\
   (p_id p ∉ (p_id <$> t)) /\ (p_sku p ∉ skus t)).
Proof.
  intros w p. unfold create_product, query_first, bind. simpl.
  rewrite app_nil_r.
  destruct (find _ t) as [q|] eqn:Hfind.
  - left. apply find_some_elem in Hfind as [Hq Hm]. split; [eauto|reflexivity].
  - right. pose proof (proj1 (find_none_elem _ _) Hfind) as Hnone.
    clear Hfind. rename Hnone into Hfind.
    pose proof (lower_fresh_is_fresh _ _ (unmatched_is_fresh _ _ Hfind))
      as Hfresh.
    split; [exact Hfind|]. split; [|split; [apply next_id_fresh|exact Hfresh]].
    unfold add, insert_one. simpl. rewrite app_nil_r.
    rewrite bool_decide_eq_false_2 by exact Hfresh. reflexivity.
Qed.

(** X2.  A SKU that is stored already, in whatever letter case, is refused. *)
Theorem create_product_refuses_same_sku (name sku description : string)
    (active : bool) (t : list Product) (store : gmap string JobRecord)
    (log : list JobRecord) (q : Product) :
  q ∈ t -> lower (p_sku q) = lower sku ->
  create_product name sku description active (mkWorld t [] store log)
    = (Raise (sku_taken sku), mkWorld t [] store log).
Proof.
  intros Hq Hsame.
  destruct (create_product_outcome name sku description active t store log)
    as [[_ H]|[Hnone _]]; [exact H|].
  apply Hnone in Hq. rewrite ilike_same_lower in Hq; [discriminate|exact Hsame].
Qed.

Lemma create_product_refuses_same_sku_witness :
  create_product "Other" "RS-1" "" true
    (world_of [mkProduct 1 "Red Shoe" "rs-1" "nice" true])
  = (Raise (sku_taken "RS-1"),
     world_of [mkProduct 1 "Red Shoe" "rs-1" "nice" true]).
Proof.
  apply (create_product_refuses_same_sku "Other" "RS-1" "" true
           [mkProduct 1 "Red Shoe" "rs-1" "nice" true] ∅ []
           (mkProduct 1 "Red Shoe" "rs-1" "nice" true)).
  - by left.
  - reflexivity.
Defined.

(** X3.  The new SKU is read as a pattern: [%x%] is refused as soon as some
    stored SKU contains [x], though no stored SKU is equal to it. *)
Theorem create_product_reads_sku_as_pattern (name x description : string)
    (active : bool) (t : list Product) (store : gmap string JobRecord)
    (log : list JobRecord) (q : Product) (pre post : string) :
  q ∈ t -> lower (p_sku q) = pre +:+ lower x +:+ post ->
  create_product name ("%" +:+ x +:+ "%") description active
    (mkWorld t [] store log)
    = (Raise (sku_taken ("%" +:+ x +:+ "%")), mkWorld t [] store log).
Proof.
  intros Hq Hsub.
  destruct (create_product_outcome name ("%" +:+ x +:+ "%") description active
              t store log) as [[_ H]|[Hnone _]]; [exact H|].
  apply Hnone in Hq. erewrite ilike_contains in Hq; [discriminate|exact Hsub].
Qed.

Lemma create_product_reads_sku_as_pattern_witness :
  create_product "Other" "%s%" "" true
    (world_of [mkProduct 1 "Red Shoe" "rs-1" "nice" true])
  = (Raise (sku_taken "%s%"),
     world_of [mkProduct 1 "Red Shoe" "rs-1" "nice" true]).
Proof.
  apply (create_product_reads_sku_as_pattern "Other" "s" "" true
           [mkProduct 1 "Red Shoe" "rs-1" "nice" true] ∅ []
           (mkProduct 1 "Red Shoe" "rs-1" "nice" true) "r" "-1").
  - by left.
  - reflexivity.
Defined.

(** X4.  [create_product] keeps the keys of the table apart: ids and SKUs stay
    pairwise different, the SKUs also up to letter case. *)
Theorem create_product_keeps_keys (name sku description : string)
    (active : bool) (t : list Product) (store : gmap string JobRecord)
    (log : list JobRecord) :
  keys_unique t -> skus_unique_nocase t ->
  let t' := db (snd (create_product name sku description active
                       (mkWorld t [] store log))) in
  keys_unique t' /\ skus_unique_nocase t'.
Proof.
  intros [Hids Hskus] Hnocase.
  destruct (create_product_outcome name sku description active t store log)
    as [[_ ->]|(Hnone & -> & Hid & Hsku)]; simpl; [done|].
  unfold keys_unique, skus_unique_nocase, skus in *.
  rewrite !fmap_app. simpl. repeat split.
  - apply NoDup_app. split; [exact Hids|]. split; [|apply NoDup_singleton].
    intros i Hi ->%list_elem_of_singleton. contradiction.
  - apply NoDup_app. split; [exact Hskus|]. split; [|apply NoDup_singleton].
    intros s Hs ->%list_elem_of_singleton. contradiction.
  - apply NoDup_app. split; [exact Hnocase|]. split; [|apply NoDup_singleton].
    intros s Hs ->%list_elem_of_singleton.
    rewrite lower_idem in Hs. by apply (unmatched_is_fresh t sku Hnone).
Qed.

Lemma create_product_keeps_keys_witness :
  let t' := db (snd (create_product "Hat" "H-1" "" true
                       (world_of [mkProduct 1 "Red Shoe" "rs-1" "nice" true]))) in
  keys_unique t' /\ skus_unique_nocase t'.
Proof.
  apply (create_product_keeps_keys "Hat" "H-1" "" true
           [mkProduct 1 "Red Shoe" "rs-1" "nice" true] ∅ []).
  - split; apply NoDup_singleton.
  - apply NoDup_singleton.
Defined.

(** X5.  Deleting the product that [create_product] has just returned gives the
    table back as it was. *)
Theorem create_then_delete (name sku description : string) (active : bool)
    (t : list Product) (store : gmap string JobRecord) (log : list JobRecord)
    (p : Product) (w' : World) :
  create_product name sku description active (mkWorld t [] store log)
    = (Return p, w') ->
  delete_product (p_id p) w' = (Return true, mkWorld t [] store log).
Proof.
  intros H.
  destruct (create_product_outcome name sku description active t store log)
    as [[_ H']|(_ & H' & Hid & _)]; rewrite H' in H; [discriminate|].
  injection H as <- <-.
  unfold delete_product, UnitOfWork.in_session, UnitOfWork.first,
    UnitOfWork.bind. simpl.
  rewrite app_nil_r.
  destruct (find _ _) as [q|] eqn:Hfind.
  - apply find_some_elem in Hfind as [_ Hq]. apply bool_decide_eq_true in Hq.
    unfold UnitOfWork.delete, UnitOfWork.commit, UnitOfWork.flush,
      UnitOfWork.ret, UnitOfWork.sql_delete. simpl.
    rewrite Hq. simpl. rewrite filter_app.
    rewrite filter_all.
    2: { intros x Hx Heq. apply (next_id_fresh t).
         rewrite <- Heq. by apply list_elem_of_fmap_2. }
    rewrite filter_singleton_False; [by rewrite app_nil_r|done|].
    simpl. intros Hne. by apply Hne.
  - exfalso.
    pose proof (proj1 (find_none_elem _ _) Hfind
                  (mkProduct (next_id t) name (lower sku) description active))
      as Hnone.
    simpl in Hnone. rewrite bool_decide_eq_true_2 in Hnone by reflexivity.
    enough (false = true) by discriminate. symmetry. apply Hnone.
    apply elem_of_app. right. by left.
Qed.

Lemma create_then_delete_witness :
  delete_product 2
    (world_of [mkProduct 1 "Red Shoe" "rs-1" "nice" true;
               mkProduct 2 "Hat" "h-1" "" true])
  = (Return true, world_of [mkProduct 1 "Red Shoe" "rs-1" "nice" true]).
Proof.
  apply (create_then_delete "Hat" "H-1" "" true
           [mkProduct 1 "Red Shoe" "rs-1" "nice" true] ∅ []
           (mkProduct 2 "Hat" "h-1" "" true)).
  reflexivity.
Defined.

(** X1.  A call of [create_product] that returns has appended one row to the
    table, the product it returns: its id is one no row had, its SKU is the
    argument in lowercase, its other fields are the arguments; and no row
    had this SKU, in whatever letter case. *)
Theorem create_product_adds_one_row (name sku description : string)
    (active : bool) (t : list Product) (store : gmap string JobRecord)
    (log : list JobRecord) (p : Product) (w' : World) :
  create_product name sku description active (mkWorld t [] store log)
    = (Return p, w') ->
  w' = mkWorld (t ++ [p]) [] store log /\
  p = mkProduct (p_id p) name (lower sku) description active /\
  (p_id p ∉ (p_id <$> t)) /\
  (forall q, q ∈ t -> lower (p_sku q) ≠ lower sku).
Proof.
  intros H.
  destruct (create_product_outcome name sku description active t store log)
    as [[_ Hraise]|(Hnone & Hret & Hid & _)].
  { rewrite Hraise in H. discriminate. }
  rewrite Hret in H. injection H as <- <-.
  repeat split; [exact Hid|].
  intros q Hq Hsame. apply Hnone in Hq.
  rewrite ilike_same_lower in Hq; [discriminate|exact Hsame].
Qed.

Lemma create_product_adds_one_row_witness :
  let t := [mkProduct 1 "Red Shoe" "rs-1" "nice" true] in
  let p := mkProduct 2 "Hat" "h-1" "" true in
  world_of (t ++ [p]) = mkWorld (t ++ [p]) [] ∅ [] /\
  p = mkProduct (p_id p) "Hat" (lower "H-1") "" true /\
  (p_id p ∉ (p_id <$> t)) /\
  (forall q, q ∈ t -> lower (p_sku q) ≠ lower "H-1").
Proof.
  apply (create_product_adds_one_row "Hat" "H-1" "" true
           [mkProduct 1 "Red Shoe" "rs-1" "nice" true] ∅ []
           (mkProduct 2 "Hat" "h-1" "" true)).
  reflexivity.
Defined.

(** ** update_product *)

Lemma lower_empty s : lower s = "" -> s = "".
Proof. by destruct s. Qed.

(** With a primary key, a row splits the table into the rows before it and
    the rows after it, none of which has its id. *)
Lemma split_at_row (t : list Product) p :
  NoDup (p_id <$> t) -> p ∈ t ->
  exists t1 t2, t = t1 ++ p :: t2 /\
                forall q, q ∈ t1 ++ t2 -> p_id q ≠ p_id p.
Proof.
  intros Hnd (t1 & t2 & ->)%list_elem_of_split. exists t1, t2.
  split; [reflexivity|].
  rewrite fmap_app, fmap_cons in Hnd.
  apply NoDup_app in Hnd as (_ & H1 & [H2 _]%NoDup_cons).
  intros q [Hq|Hq]%elem_of_app Heq.
  - apply (H1 (p_id q)); [by apply list_elem_of_fmap_2|]. rewrite Heq. by left.
  - apply H2. rewrite <- Heq. by apply list_elem_of_fmap_2.
Qed.

Lemma find_row (t1 t2 : list Product) p :
  (forall q, q ∈ t1 -> p_id q ≠ p_id p) ->
  find (fun q => bool_decide (p_id q = p_id p)) (t1 ++ p :: t2) = Some p.
Proof.
  induction t1 as [|x l IH]; intros H; simpl.
  - by rewrite bool_decide_eq_true_2.
  - rewrite bool_decide_eq_false_2 by (apply H; by left).
    apply IH. intros q Hq. apply H. by right.
Qed.

Lemma filter_others (t1 t2 : list Product) p :
  (forall q, q ∈ t1 ++ t2 -> p_id q ≠ p_id p) ->
  filter (fun q => p_id q ≠ p_id p) (t1 ++ p :: t2) = t1 ++ t2.
Proof.
  intros Hothers.
  rewrite filter_app, filter_cons_False by (intros H; by apply H).
  rewrite !filter_all; [reflexivity|..];
    intros q Hq; apply Hothers, elem_of_app; auto.
Qed.

Lemma put_row (t1 t2 : list Product) p (new : Product) :
  (forall q, q ∈ t1 ++ t2 -> p_id q ≠ p_id p) ->
  (fun q => if bool_decide (p_id q = p_id p) then new else q)
    <$> (t1 ++ p :: t2)
  = t1 ++ new :: t2.
Proof.
  intros Hothers.
  rewrite fmap_app, fmap_cons, bool_decide_eq_true_2 by reflexivity.
  f_equal; [|f_equal].
  - rewrite <- (list_fmap_id t1) at 2. apply list_fmap_ext.
    intros i q Hq. apply list_elem_of_lookup_2 in Hq.
    rewrite bool_decide_eq_false_2; [done|].
    apply Hothers, elem_of_app. auto.
  - rewrite <- (list_fmap_id t2) at 2. apply list_fmap_ext.
    intros i q Hq. apply list_elem_of_lookup_2 in Hq.
    rewrite bool_decide_eq_false_2; [done|].
    apply Hothers, elem_of_app. auto.
Qed.

Lemma commit_one_change (t : list Product) (store : gmap string JobRecord)
    (log : list JobRecord) (p new : Product) :
  UnitOfWork.commit
    (UnitOfWork.mkSession (mkWorld t [] store log) t [(p, new)] [])
  = match UnitOfWork.sql_update p new t with
    | Return t' =>
        (Return tt,
         UnitOfWork.mkSession (mkWorld t' [] store log) t' [] [])
    | Raise e =>
        (Raise e, UnitOfWork.mkSession (mkWorld t [] store log) t [] [])
    end.
Proof.
  unfold UnitOfWork.commit, UnitOfWork.flush. simpl.
  by destruct (UnitOfWork.sql_update p new t).
Qed.

Lemma update_product_cases (product_id : Z)
    (name sku description : option string) (active : option bool)
    (t : list Product) (store : gmap string JobRecord) (log : list JobRecord)
    res w' :
  NoDup (p_id <$> t) ->
  update_product product_id name sku description active
    (mkWorld t [] store log) = (res, w') ->
  exists t', w' = mkWorld t' [] store log /\
             update_run product_id name sku description active t res t'.
Proof.
  intros Hnd.
  unfold update_product, UnitOfWork.in_session, UnitOfWork.first,
    UnitOfWork.bind at 1.
  simpl. rewrite app_nil_r.
  destruct (find _ t) as [p|] eqn:Hfind.
  2: { intros [= <- <-]. exists t. split; [reflexivity|].
       apply update_missing. intros q Hq Heq.
       pose proof (proj1 (find_none_elem _ _) Hfind q Hq) as Hf.
       simpl in Hf. by rewrite bool_decide_eq_true_2 in Hf. }
  apply find_some_elem in Hfind as [Hp Hid].
  apply bool_decide_eq_true in Hid.
  destruct (split_at_row t p Hnd Hp) as (t1 & t2 & -> & Hothers).
  subst product_id.
  fold (updated_row p name sku description active).
  set (new := updated_row p name sku description active).
  set (s0 := UnitOfWork.mkSession (mkWorld (t1 ++ p :: t2) [] store log)
               (t1 ++ p :: t2) [] []).
  (* the uniqueness check *)
  assert (Hcheck :
    (exists s q, sku = Some s /\ s ≠ "" /\ lower s ≠ p_sku p /\
                 q ∈ t1 ++ t2 /\ ilike (p_sku q) s = true /\
                 check_sku (p_id p) sku p s0 = (Raise (sku_taken s), s0)) \/
    (check_sku (p_id p) sku p s0 = (Return tt, s0) /\
     (sku = Some "" \/ p_sku new = p_sku p \/
      lower (p_sku new) ∉ (lower <$> skus (t1 ++ t2))))).
  { unfold check_sku. destruct sku as [s|]; [|right; split; [done|auto]].
    destruct (decide (s = "")) as [->|Hs].
    { right. split; [done|auto]. }
    rewrite (bool_decide_eq_false_2 _ Hs). simpl.
    destruct (decide (lower s = p_sku p)) as [Hsame|Hdiff].
    { rewrite (bool_decide_eq_true_2 _ Hsame). simpl.
      right. split; [done|]. right. left. exact Hsame. }
    rewrite (bool_decide_eq_false_2 _ Hdiff). simpl.
    unfold UnitOfWork.first, UnitOfWork.bind. simpl.
    destruct (find _ (t1 ++ p :: t2)) as [q|] eqn:Hfq.
    - left. apply find_some_elem in Hfq as [Hq Hc].
      apply andb_true_iff in Hc as [Hm Hne].
      apply negb_true_iff, bool_decide_eq_false in Hne.
      exists s, q. repeat split; auto.
      apply elem_of_app in Hq as [Hq|[->|Hq]%elem_of_cons];
        apply elem_of_app; auto. congruence.
    - right. split; [done|]. right. right. simpl. rewrite lower_idem.
      apply unmatched_is_fresh. intros q Hq.
      pose proof (proj1 (find_none_elem _ _) Hfq q) as Hf. simpl in Hf.
      rewrite (bool_decide_eq_false_2 _ (Hothers q Hq)) in Hf. simpl in Hf.
      rewrite andb_true_r in Hf. apply Hf.
      apply elem_of_app in Hq as [Hq|Hq]; apply elem_of_app; auto.
      right. by right. }
  unfold UnitOfWork.bind at 1.
  destruct Hcheck as [(s & q & -> & Hs & Hdiff & Hq & Hm & ->)|[-> Hfresh]].
  { intros [= <- <-]. eexists. split; [reflexivity|].
    by eapply update_taken. }
  unfold UnitOfWork.bind, UnitOfWork.set_attributes, UnitOfWork.ret, s0.
  simpl. rewrite commit_one_change. unfold UnitOfWork.sql_update.
  rewrite filter_others, put_row by assumption.
  destruct (decide (p_sku new = p_sku p)) as [Hsame|Hchanged].
  { rewrite (bool_decide_eq_false_2 (p_sku new ≠ p_sku p)) by tauto. simpl.
    intros [= <- <-]. eexists. split; [reflexivity|].
    eapply update_done; eauto. }
  rewrite (bool_decide_eq_true_2 _ Hchanged). simpl.
  destruct (decide (p_sku new ∈ skus (t1 ++ t2))) as [Hin|Hout].
  - rewrite (bool_decide_eq_true_2 _ Hin). intros [= <- <-].
    eexists. split; [reflexivity|].
    destruct Hfresh as [->|[Hsame|Hfresh]].
    + simpl in Hin, Hchanged. eapply update_refused; eauto.
    + contradiction.
    + exfalso. apply Hfresh. by apply list_elem_of_fmap_2.
  - rewrite (bool_decide_eq_false_2 _ Hout).
    intros [= <- <-]. eexists. split; [reflexivity|].
    eapply update_done; eauto. right.
    destruct Hfresh as [->|[Hsame|Hfresh]]; [|contradiction|exact Hfresh].
    simpl in *. intros (s & Heq & Hs)%list_elem_of_fmap.
    symmetry in Heq. apply lower_empty in Heq. by subst s.
Qed.

Lemma row_of_split (t1 t2 : list Product) p q :
  (forall x, x ∈ t1 ++ t2 -> p_id x ≠ p_id p) ->
  q ∈ t1 ++ p :: t2 -> p_id q = p_id p -> q = p.
Proof.
  intros Hothers Hq Heq.
  apply elem_of_app in Hq as [Hq|[->|Hq]%elem_of_cons]; [|done|].
  - exfalso. apply (Hothers q); [|exact Heq]. apply elem_of_app. by left.
  - exfalso. apply (Hothers q); [|exact Heq]. apply elem_of_app. by right.
Qed.

Lemma other_of_split (t1 t2 : list Product) p q :
  q ∈ t1 ++ p :: t2 -> p_id q ≠ p_id p -> q ∈ t1 ++ t2.
Proof.
  intros Hq Hne.
  apply elem_of_app in Hq as [Hq|[->|Hq]%elem_of_cons].
  - apply elem_of_app. by left.
  - done.
  - apply elem_of_app. by right.
Qed.

Lemma NoDup_fmap_replace {A B} (f : A -> B) (l1 l2 : list A) x y :
  NoDup (f <$> (l1 ++ x :: l2)) ->
  f y = f x \/ (f y ∉ (f <$> (l1 ++ l2))) ->
  NoDup (f <$> (l1 ++ y :: l2)).
Proof.
  rewrite !fmap_app, !fmap_cons.
  intros (H1 & Hdisj & [Hx H2]%NoDup_cons)%NoDup_app [Heq|Hfresh].
  - by rewrite Heq; apply NoDup_app; repeat split; [..|apply NoDup_cons].
  - apply NoDup_app. split; [exact H1|]. split.
    + intros b Hb [->|Hb2]%elem_of_cons.
      * apply Hfresh. apply elem_of_app. by left.
      * apply (Hdisj b Hb). by right.
    + apply NoDup_cons. split; [|exact H2].
      intros Hy. apply Hfresh. apply elem_of_app. by right.
Qed.

(** X6.  A call of [update_product] that returns a product has changed one row:
    the row with the identifier, where it sits.  The row keeps its id; each
    field takes the argument given for it, the SKU in lowercase, and keeps its
    value where the argument is [None].  Every other row is as it was. *)
Theorem update_product_changes_one_row (product_id : Z)
    (name sku description : option string) (active : option bool)
    (t : list Product) (store : gmap string JobRecord) (log : list JobRecord)
    (p' : Product) (w' : World) :
  NoDup (p_id <$> t) ->
  update_product product_id name sku description active
    (mkWorld t [] store log) = (Return (Some p'), w') ->
  exists t1 p t2,
    t = t1 ++ p :: t2 /\ p_id p = product_id /\
    w' = mkWorld (t1 ++ p' :: t2) [] store log /\
    p_id p' = product_id /\
    p_name p' = default (p_name p) name /\
    p_sku p' = default (p_sku p) (lower <$> sku) /\
    p_description p' = default (p_description p) description /\
    p_active p' = default (p_active p) active.
Proof.
  intros Hnd H.
  apply update_product_cases in H as (t' & -> & Hrun); [|exact Hnd].
  inversion Hrun as [| | |t1 p t2 Ht Hid Hothers Hfresh Hres Ht']; subst.
  exists t1, p, t2. repeat split; reflexivity.
Qed.

Lemma update_product_changes_one_row_witness :
  exists t1 p t2,
    [mkProduct 1 "Red Shoe" "rs-1" "nice" true;
     mkProduct 2 "Hat" "h-1" "" true]
      = t1 ++ p :: t2 /\ p_id p = 2%Z /\
    mkWorld [mkProduct 1 "Red Shoe" "rs-1" "nice" true;
             mkProduct 2 "Cap" "c-9" "" true] [] ∅ []
      = mkWorld (t1 ++ mkProduct 2 "Cap" "c-9" "" true :: t2) [] ∅ [] /\
    p_id (mkProduct 2 "Cap" "c-9" "" true) = 2%Z /\
    p_name (mkProduct 2 "Cap" "c-9" "" true)
      = default (p_name p) (Some "Cap") /\
    p_sku (mkProduct 2 "Cap" "c-9" "" true)
      = default (p_sku p) (lower <$> Some "C-9") /\
    p_description (mkProduct 2 "Cap" "c-9" "" true)
      = default (p_description p) None /\
    p_active (mkProduct 2 "Cap" "c-9" "" true) = default (p_active p) None.
Proof.
  apply (update_product_changes_one_row 2 (Some "Cap") (Some "C-9") None None
           [mkProduct 1 "Red Shoe" "rs-1" "nice" true;
            mkProduct 2 "Hat" "h-1" "" true] ∅ []).
  - vm_compute. repeat constructor; set_solver.
  - reflexivity.
Defined.

(** X7.  [update_product] returns [None] exactly when no row has the identifier,
    and whenever it does not return a product (no such row, a SKU that is
    taken, a refusal of the write layer) the table is as it was. *)
Theorem update_product_failure_changes_nothing (product_id : Z)
    (name sku description : option string) (active : option bool)
    (t : list Product) (store : gmap string JobRecord) (log : list JobRecord)
    (res : Result (option Product)) (w' : World) :
  NoDup (p_id <$> t) ->
  update_product product_id name sku description active
    (mkWorld t [] store log) = (res, w') ->
  (res = Return None <-> forall q, q ∈ t -> p_id q ≠ product_id) /\
  ((forall p', res ≠ Return (Some p')) -> w' = mkWorld t [] store log).
Proof.
  intros Hnd H.
  apply update_product_cases in H as (t' & -> & Hrun); [|exact Hnd].
  destruct Hrun as [Hnone|t1 p t2 s q -> Hid _ _ _ _ _ _
                   |t1 p t2 -> Hid _ _ _ _|t1 p t2 -> Hid _ _].
  - split; [tauto|done].
  - split; [|done]. split; [discriminate|]. intros Hnone. exfalso.
    apply (Hnone p); [|exact Hid]. apply elem_of_app. right. by left.
  - split; [|done]. split; [discriminate|]. intros Hnone. exfalso.
    apply (Hnone p); [|exact Hid]. apply elem_of_app. right. by left.
  - split.
    + split; [discriminate|]. intros Hnone. exfalso.
      apply (Hnone p); [|exact Hid]. apply elem_of_app. right. by left.
    + intros Hno. by destruct (Hno _ eq_refl).
Qed.

Lemma update_product_failure_changes_nothing_witness :
  (@Return (option Product) None = Return None <->
   forall q, q ∈ [mkProduct 1 "Red Shoe" "rs-1" "nice" true] -> p_id q ≠ 7%Z) /\
  ((forall p' : Product, Return None ≠ Return (Some p')) ->
   world_of [mkProduct 1 "Red Shoe" "rs-1" "nice" true]
   = mkWorld [mkProduct 1 "Red Shoe" "rs-1" "nice" true] [] ∅ []).
Proof.
  apply (update_product_failure_changes_nothing 7 (Some "x") None None None
           [mkProduct 1 "Red Shoe" "rs-1" "nice" true] ∅ []).
  - apply NoDup_singleton.
  - reflexivity.
Defined.

(** X8.  A new SKU that another row has, in whatever letter case, is refused
    with [ValueError], and nothing is written. *)
Theorem update_product_refuses_taken_sku (product_id : Z)
    (name description : option string) (s : string) (active : option bool)
    (t : list Product) (store : gmap string JobRecord) (log : list JobRecord)
    (p q : Product) :
  NoDup (p_id <$> t) ->
  p ∈ t -> p_id p = product_id ->
  q ∈ t -> p_id q ≠ product_id -> lower (p_sku q) = lower s ->
  s ≠ "" -> lower s ≠ p_sku p ->
  update_product product_id name (Some s) description active
    (mkWorld t [] store log)
  = (Raise (sku_taken s), mkWorld t [] store log).
Proof.
  intros Hnd Hp Hid Hq Hqid Hsame Hs Hdiff.
  destruct (update_product product_id name (Some s) description active
              (mkWorld t [] store log)) as [res w'] eqn:E.
  apply update_product_cases in E as (t' & -> & Hrun); [|exact Hnd].
  destruct Hrun as [Hnone|t1 p0 t2 s0 q0 -> Hid0 Hothers [= <-] _ _ _ _
                   |t1 p0 t2 -> Hid0 Hothers [= ->] _ _
                   |t1 p0 t2 -> Hid0 Hothers Hfresh].
  - by destruct (Hnone p Hp).
  - reflexivity.
  - done.
  - exfalso. rewrite <- Hid0 in Hothers, Hid, Hqid.
    assert (p = p0) as -> by (by eapply row_of_split).
    simpl in Hfresh. destruct Hfresh as [Heq|Hfresh]; [by apply Hdiff|].
    apply Hfresh. rewrite lower_idem, <- Hsame.
    apply list_elem_of_fmap_2, list_elem_of_fmap_2.
    by eapply other_of_split.
Qed.

Lemma update_product_refuses_taken_sku_witness :
  update_product 2 None (Some "RS-1") None None
    (mkWorld [mkProduct 1 "Red Shoe" "rs-1" "nice" true;
              mkProduct 2 "Hat" "h-1" "" true] [] ∅ [])
  = (Raise (sku_taken "RS-1"),
     mkWorld [mkProduct 1 "Red Shoe" "rs-1" "nice" true;
              mkProduct 2 "Hat" "h-1" "" true] [] ∅ []).
Proof.
  apply (update_product_refuses_taken_sku 2 None None "RS-1" None
           [mkProduct 1 "Red Shoe" "rs-1" "nice" true;
            mkProduct 2 "Hat" "h-1" "" true] ∅ []
           (mkProduct 2 "Hat" "h-1" "" true)
           (mkProduct 1 "Red Shoe" "rs-1" "nice" true)).
  - vm_compute. repeat constructor; set_solver.
  - set_solver.
  - reflexivity.
  - set_solver.
  - simpl. lia.
  - reflexivity.
  - discriminate.
  - discriminate.
Defined.

(** X9.  [update_product] keeps the keys of the table apart: ids and SKUs stay
    pairwise different, the SKUs also up to letter case, whatever the
    arguments and the outcome. *)
Theorem update_product_keeps_keys (product_id : Z)
    (name sku description : option string) (active : option bool)
    (t : list Product) (store : gmap string JobRecord) (log : list JobRecord) :
  keys_unique t -> skus_unique_nocase t ->
  let t' := db (snd (update_product product_id name sku description active
                       (mkWorld t [] store log))) in
  keys_unique t' /\ skus_unique_nocase t'.
Proof.
  intros [Hids Hskus] Hnocase.
  destruct (update_product product_id name sku description active
              (mkWorld t [] store log)) as [res w'] eqn:E.
  apply update_product_cases in E as (t' & -> & Hrun); [|exact Hids].
  simpl. destruct Hrun as [| | |t1 p t2 -> Hid Hothers Hfresh]; try done.
  assert (Hnew : skus_unique_nocase
                   (t1 ++ updated_row p name sku description active :: t2)).
  { unfold skus_unique_nocase, skus in *. rewrite <- list_fmap_compose in *.
    eapply NoDup_fmap_replace; [exact Hnocase|]. simpl. simpl in Hfresh.
    destruct Hfresh as [Heq|Hfresh]; [left; by rewrite Heq|right; exact Hfresh]. }
  split; [split|exact Hnew].
  - rewrite fmap_app, fmap_cons in *. exact Hids.
  - unfold skus_unique_nocase in Hnew. by apply NoDup_fmap_1 in Hnew.
Qed.

Lemma update_product_keeps_keys_witness :
  let t' := db (snd (update_product 1 None (Some "RS-2") None (Some false)
                       (mkWorld [mkProduct 1 "Red Shoe" "rs-1" "nice" true]
                                [] ∅ []))) in
  keys_unique t' /\ skus_unique_nocase t'.
Proof.
  apply (update_product_keeps_keys 1 None (Some "RS-2") None (Some false)
           [mkProduct 1 "Red Shoe" "rs-1" "nice" true] ∅ []).
  - split; apply NoDup_singleton.
  - apply NoDup_singleton.
Defined.

(** ** delete_all_products *)

(** X10.  [delete_all_products] returns the number of rows the table had and
    leaves it empty: [get_status] then counts no product, and a second call
    returns 0. *)
Theorem delete_all_products_empties (t : list Product)
    (store : gmap string JobRecord) (log : list JobRecord) :
  let '(res, w') := delete_all_products (mkWorld t [] store log) in
  res = Return (length t) /\
  w' = mkWorld [] [] store log /\
  get_status w' = mkStatus 0 0 0 /\
  delete_all_products w' = (Return 0%nat, w').
Proof.
  unfold delete_all_products, UnitOfWork.in_session, UnitOfWork.count,
    UnitOfWork.delete_query, UnitOfWork.commit, UnitOfWork.flush,
    UnitOfWork.bind, UnitOfWork.ret.
  simpl. rewrite app_nil_r.
  rewrite filter_all by done. repeat split.
Qed.

(** ** get_products_paginated *)

Lemma concat_chunks {A} (l : list A) (size count : nat) :
  concat ((fun k => take size (drop (k * size) l)) <$> seq 0 count)
  = take (count * size) l.
Proof.
  induction count as [|c IH]; [reflexivity|].
  rewrite seq_S, fmap_app, concat_app, IH. simpl.
  rewrite app_nil_r, take_take_drop. f_equal. lia.
Qed.

(** Rounding up: the number of pages is the least number of pages of
    [per_page] rows that hold [total] rows. *)
Lemma pages_enough (total per_page : Z) :
  (0 <= total)%Z -> (0 < per_page)%Z ->
  let pages := ((total + per_page - 1) / per_page)%Z in
  (0 <= pages /\ total <= pages * per_page /\
   (pages - 1) * per_page < total \/ (total = 0 /\ pages = 0))%Z.
Proof.
  intros Ht Hp pages.
  pose proof (Z.mul_div_le (total + per_page - 1) per_page Hp).
  pose proof (Z.mul_succ_div_gt (total + per_page - 1) per_page Hp).
  fold pages in H, H0.
  destruct (decide (total = 0%Z)) as [->|Hne]; [right|left]; nia.
Qed.

Lemma page_slice (page per_page : Z) (l : list Product) :
  (1 <= page)%Z -> (0 < per_page)%Z ->
  limit per_page (offset ((page - 1) * per_page) l)
  = take (Z.to_nat per_page)
         (drop (Z.to_nat (page - 1) * Z.to_nat per_page) l).
Proof.
  intros Hpage Hper. unfold limit, offset.
  rewrite bool_decide_eq_false_2 by lia.
  by rewrite Z2Nat.inj_mul by lia.
Qed.

(** X11.  With a positive page size the pages 1, 2, ... up to [total_pages] are
    a partition of the rows that pass the filters: laid end to end they give
    these rows, each once, in the order of the table. Every call reports their
    number as [total] and the same [total_pages]. *)
Theorem pages_partition_the_rows (per_page : Z) (search active : option string)
    (w : World) :
  (0 < per_page)%Z ->
  let rows_found := filtered search active w in
  let total := Z.of_nat (length rows_found) in
  let total_pages := ((total + per_page - 1) / per_page)%Z in
  exists products : nat -> list Product,
    (forall k : nat,
       get_products_paginated (Z.of_nat (S k)) per_page search active w
       = PageOk (mkPage (products k) total (Z.of_nat (S k)) per_page
                        total_pages)) /\
    concat (products <$> seq 0 (Z.to_nat total_pages)) = rows_found.
Proof.
  intros Hper rows_found total total_pages.
  exists (fun k => take (Z.to_nat per_page)
                     (drop (k * Z.to_nat per_page) rows_found)).
  split.
  - intros k. unfold get_products_paginated.
    rewrite bool_decide_eq_false_2 by lia.
    fold rows_found. rewrite page_slice by lia.
    replace (Z.to_nat (Z.of_nat (S k) - 1)) with k by lia. reflexivity.
  - rewrite concat_chunks. apply take_ge.
    pose proof (pages_enough total per_page ltac:(lia) Hper) as H.
    cbv zeta in H. subst total_pages total.
    destruct H as [H|[H1 H2]]; nia.
Qed.

Lemma pages_partition_the_rows_witness :
  let w := world_of [mkProduct 1 "Red Shoe" "rs-1" "nice" true;
                     mkProduct 2 "Blue" "bl-2" "red laces" false;
                     mkProduct 5 "Hat" "h-1" "" true] in
  let rows_found := filtered None None w in
  let total := Z.of_nat (length rows_found) in
  let total_pages := ((total + 2 - 1) / 2)%Z in
  exists products : nat -> list Product,
    (forall k : nat,
       get_products_paginated (Z.of_nat (S k)) 2 None None w
       = PageOk (mkPage (products k) total (Z.of_nat (S k)) 2 total_pages)) /\
    concat (products <$> seq 0 (Z.to_nat total_pages)) = rows_found.
Proof.
  apply (pages_partition_the_rows 2 None None
           (world_of [mkProduct 1 "Red Shoe" "rs-1" "nice" true;
                      mkProduct 2 "Blue" "bl-2" "red laces" false;
                      mkProduct 5 "Hat" "h-1" "" true])).
  lia.
Defined.

(** X12.  A page never holds more than [per_page] rows; a page before the last
    holds exactly [per_page], a page after the last is empty; and
    [total_pages] is 0 exactly when no row passes the filters. *)
Theorem page_sizes (page per_page : Z) (search active : option string)
    (w : World) (pg : Page) :
  (1 <= page)%Z -> (0 < per_page)%Z ->
  get_products_paginated page per_page search active w = PageOk pg ->
  (Z.of_nat (length (pg_products pg)) <= per_page)%Z /\
  ((page < pg_total_pages pg)%Z ->
   Z.of_nat (length (pg_products pg)) = per_page) /\
  ((pg_total_pages pg < page)%Z -> pg_products pg = []) /\
  (pg_total_pages pg = 0%Z <-> pg_total pg = 0%Z) /\
  pg_total pg = Z.of_nat (length (filtered search active w)).
Proof.
  intros Hpage Hper. unfold get_products_paginated.
  rewrite bool_decide_eq_false_2 by lia. rewrite page_slice by lia.
  intros [= <-]. simpl.
  set (l := filtered search active w).
  destruct (pages_enough (Z.of_nat (length l)) per_page ltac:(lia) Hper)
    as [H|[H1 H2]].
  - repeat split.
    + rewrite length_take. lia.
    + intros Hlt. rewrite length_take, length_drop. nia.
    + intros Hgt. rewrite drop_ge; [by rewrite take_nil|]. nia.
    + nia.
    + nia.
  - rewrite H2. repeat split; try lia.
    + rewrite length_take. lia.
    + intros _. assert (l = []) as -> by (apply nil_length_inv; lia).
      by rewrite drop_nil, take_nil.
Qed.

Lemma page_sizes_witness :
  let w := world_of [mkProduct 1 "Red Shoe" "rs-1" "nice" true;
                     mkProduct 2 "Blue" "bl-2" "red laces" false;
                     mkProduct 5 "Hat" "h-1" "" true] in
  let pg := mkPage [mkProduct 5 "Hat" "h-1" "" true] 3 2 2 2 in
  (Z.of_nat (length (pg_products pg)) <= 2)%Z /\
  ((2 < pg_total_pages pg)%Z -> Z.of_nat (length (pg_products pg)) = 2%Z) /\
  ((pg_total_pages pg < 2)%Z -> pg_products pg = []) /\
  (pg_total_pages pg = 0%Z <-> pg_total pg = 0%Z) /\
  pg_total pg = Z.of_nat (length (filtered None None w)).
Proof.
  apply (page_sizes 2 2 None None
           (world_of [mkProduct 1 "Red Shoe" "rs-1" "nice" true;
                      mkProduct 2 "Blue" "bl-2" "red laces" false;
                      mkProduct 5 "Hat" "h-1" "" true])).
  - lia.
  - lia.
  - reflexivity.
Defined.

Lemma lower_char_wild c :
  Ascii.eqb (lower_char c) "%" = Ascii.eqb c "%" /\
  Ascii.eqb (lower_char c) "_" = Ascii.eqb c "_".
Proof. destruct c as [[] [] [] [] [] [] [] []]; split; reflexivity. Qed.

Lemma plain_lower s : plain s = true -> plain (lower s) = true.
Proof.
  induction s as [|c s IH]; [done|]. simpl.
  destruct (lower_char_wild c) as [-> ->].
  intros [Hc Hs]%andb_true_iff. rewrite Hc. simpl. by apply IH.
Qed.

Lemma like_prefix_inv s : forall t,
  plain s = true -> like (s +:+ "%") t = true -> exists post, t = s +:+ post.
Proof.
  induction s as [|c s IH]; intros t Hplain Hlike; [by exists t|].
  simpl in Hplain.
  apply andb_true_iff in Hplain as [[H1 H2]%andb_true_iff Hs].
  apply negb_true_iff in H1, H2.
  rewrite string_app_cons, like_char in Hlike by assumption.
  destruct t as [|d t]; [discriminate|].
  apply andb_true_iff in Hlike as [->%Ascii.eqb_eq Hlike].
  destruct (IH t Hs Hlike) as [post ->]. by exists post.
Qed.

Lemma like_skip_inv pat t :
  like (String "%" pat) t = true ->
  exists pre t', t = pre +:+ t' /\ like pat t' = true.
Proof.
  induction t as [|c t IH]; rewrite like_percent.
  - rewrite orb_false_r. intros H. by exists "", "".
  - intros [H|H]%orb_true_iff.
    + by exists "", (String c t).
    + destruct (IH H) as (pre & t' & -> & Ht'). by exists (String c pre), t'.
Qed.

Lemma like_contains_inv s t :
  plain s = true -> like ("%" +:+ s +:+ "%") t = true -> contains t s.
Proof.
  intros Hplain Hlike.
  change ("%" +:+ s +:+ "%") with (String "%" (s +:+ "%")) in Hlike.
  apply like_skip_inv in Hlike as (pre & t' & -> & Hlike).
  apply like_prefix_inv in Hlike as [post ->]; [|exact Hplain].
  by exists pre, post.
Qed.

(** What the search pattern means on one column. *)
Lemma ilike_search column s :
  (contains (lower column) (lower s) -> ilike column ("%" +:+ s +:+ "%") = true)
  /\ (plain s = true -> ilike column ("%" +:+ s +:+ "%") = true ->
      contains (lower column) (lower s)).
Proof.
  split.
  - intros (pre & post & H). by eapply ilike_contains.
  - unfold ilike. rewrite !lower_app. intros Hplain.
    apply like_contains_inv. by apply plain_lower.
Qed.

Lemma elem_of_filtered search active w q :
  q ∈ filtered search active w <->
  q ∈ db w ++ txn w /\ matches_search search q = true /\
  matches_active active q = true.
Proof.
  unfold filtered. rewrite list_elem_of_filter.
  rewrite andb_True, !Is_true_true. tauto.
Qed.

(** X13.  The search is a case-blind search for a piece of text: a row whose
    name, SKU or description contains the text is found, and when the text has
    neither [%] nor [_] only such rows are found. *)
Theorem search_finds_containing_rows (s : string) (active : option string)
    (w : World) (q : Product) :
  s ≠ "" ->
  let has_text :=
    contains (lower (p_name q)) (lower s) \/
    contains (lower (p_sku q)) (lower s) \/
    contains (lower (p_description q)) (lower s) in
  (q ∈ db w ++ txn w -> matches_active active q = true -> has_text ->
   q ∈ filtered (Some s) active w) /\
  (plain s = true -> q ∈ filtered (Some s) active w -> has_text).
Proof.
  intros Hs has_text. split.
  - intros Hq Hactive Htext. apply elem_of_filtered.
    split; [exact Hq|]. split; [|exact Hactive].
    unfold matches_search. rewrite bool_decide_eq_false_2 by exact Hs.
    destruct Htext as [H|[H|H]];
      apply (proj1 (ilike_search _ s)) in H; rewrite H;
      by rewrite ?orb_true_r.
  - intros Hplain (_ & Hsearch & _)%elem_of_filtered.
    unfold matches_search in Hsearch.
    rewrite bool_decide_eq_false_2 in Hsearch by exact Hs.
    apply orb_true_iff in Hsearch as [[H|H]%orb_true_iff|H];
      apply (proj2 (ilike_search _ s) Hplain) in H; unfold has_text; auto.
Qed.

Lemma search_finds_containing_rows_witness :
  let w := world_of [mkProduct 1 "Red Shoe" "rs-1" "nice" true;
                     mkProduct 2 "Blue" "bl-2" "red laces" false] in
  let q := mkProduct 2 "Blue" "bl-2" "red laces" false in
  let has_text :=
    contains (lower (p_name q)) (lower "RED") \/
    contains (lower (p_sku q)) (lower "RED") \/
    contains (lower (p_description q)) (lower "RED") in
  (q ∈ db w ++ txn w -> matches_active None q = true -> has_text ->
   q ∈ filtered (Some "RED") None w) /\
  (plain "RED" = true -> q ∈ filtered (Some "RED") None w -> has_text).
Proof.
  apply (search_finds_containing_rows "RED" None
           (world_of [mkProduct 1 "Red Shoe" "rs-1" "nice" true;
                      mkProduct 2 "Blue" "bl-2" "red laces" false])
           (mkProduct 2 "Blue" "bl-2" "red laces" false)).
  discriminate.
Defined.

(** X14.  The filter on [active]: ["true"], in any letter case, keeps the active
    rows; any other text but [""] and ["none"] keeps the inactive rows;
    [None], [""] and ["none"] keep every row. *)
Theorem active_filter_selects (active : option string) (w : World) :
  let t := db w ++ txn w in
  match active with
  | None => filtered None active w = t
  | Some a =>
      (a = "" \/ lower a = "none" -> filtered None active w = t) /\
      (lower a = "true" ->
       filtered None active w = filter (fun p => p_active p = true) t) /\
      (a ≠ "" -> lower a ≠ "none" -> lower a ≠ "true" ->
       filtered None active w = filter (fun p => p_active p = false) t)
  end.
Proof.
  intros t. unfold filtered. fold t.
  destruct active as [a|]; [|by apply filter_all].
  split; [|split].
  - intros Hoff. apply filter_all. intros p _. simpl.
    destruct Hoff as [->| ->]; [done|].
    by destruct (bool_decide (a = "")).
  - intros Htrue. apply list_filter_iff. intros p. simpl.
    assert (a ≠ "") as Ha by (by intros ->).
    rewrite (bool_decide_eq_false_2 _ Ha), Htrue. simpl.
    destruct (p_active p); simpl; split; done.
  - intros Ha Hnone Htrue. apply list_filter_iff. intros p. simpl.
    rewrite (bool_decide_eq_false_2 _ Ha). simpl.
    rewrite bool_decide_eq_false_2.
    2: { intros [H|[H|H]%elem_of_cons]%elem_of_cons.
         - done.
         - apply lower_empty in H. done.
         - by apply elem_of_nil in H. }
    simpl. rewrite (bool_decide_eq_false_2 _ Htrue).
    destruct (p_active p); simpl; split; done.
Qed.

Lemma active_filter_selects_witness :
  let w := world_of [mkProduct 1 "Red Shoe" "rs-1" "nice" true;
                     mkProduct 2 "Blue" "bl-2" "red laces" false] in
  filtered None (Some "TRUE") w = [mkProduct 1 "Red Shoe" "rs-1" "nice" true] /\
  filtered None (Some "yes") w
    = [mkProduct 2 "Blue" "bl-2" "red laces" false] /\
  filtered None (Some "None") w = db w ++ txn w.
Proof.
  pose (w := world_of [mkProduct 1 "Red Shoe" "rs-1" "nice" true;
                       mkProduct 2 "Blue" "bl-2" "red laces" false]).
  split; [|split].
  - apply (proj1 (proj2 (active_filter_selects (Some "TRUE") w))).
    reflexivity.
  - apply (proj2 (proj2 (active_filter_selects (Some "yes") w)));
      discriminate.
  - apply (proj1 (active_filter_selects (Some "None") w)). by right.
Defined.

(** ** The import and the keys of the table *)

Lemma keys_unique_snoc (t : list Product) (i : Z) (np : NewProduct) :
  keys_unique t -> i ∉ (p_id <$> t) -> np_sku np ∉ skus t ->
  keys_unique (t ++ [stored i np]).
Proof.
  intros [Hids Hskus] Hi Hs. unfold keys_unique, skus in *.
  rewrite !fmap_app. simpl. split.
  - apply NoDup_app. split; [exact Hids|]. split; [|apply NoDup_singleton].
    intros j Hj ->%list_elem_of_singleton. contradiction.
  - apply NoDup_app. split; [exact Hskus|]. split; [|apply NoDup_singleton].
    intros s Hs' ->%list_elem_of_singleton. contradiction.
Qed.

Lemma keys_unique_prefix (t u : list Product) :
  keys_unique (t ++ u) -> keys_unique t.
Proof.
  unfold keys_unique, skus. rewrite !fmap_app.
  intros [[H1 _]%NoDup_app [H2 _]%NoDup_app]. by split.
Qed.

Lemma commit_other_keys (t : list Product) (np : NewProduct) :
  keys_unique t -> keys_unique (commit_other t np).
Proof.
  intros Hk. unfold commit_other. case_bool_decide as Hin; [exact Hk|].
  apply keys_unique_snoc; [exact Hk|apply next_id_fresh|exact Hin].
Qed.

Lemma foldl_commit_other_keys (nps : list NewProduct) : forall t,
  keys_unique t -> keys_unique (foldl commit_other t nps).
Proof.
  induction nps as [|np nps IH]; intros t Hk; [exact Hk|].
  simpl. by apply IH, commit_other_keys.
Qed.

Lemma insert_one_keys (np : NewProduct) (w : World) r w' :
  keys_unique (db w ++ txn w) -> insert_one np w = (r, w') ->
  keys_unique (db w' ++ txn w').
Proof.
  intros Hk. unfold insert_one. case_bool_decide as Hin.
  - by intros [= <- <-].
  - intros [= <- <-]. simpl. rewrite app_assoc.
    apply keys_unique_snoc; [exact Hk|apply next_id_fresh|exact Hin].
Qed.

Lemma execute_insert_keys (nps : list NewProduct) : forall w r w',
  keys_unique (db w ++ txn w) -> execute_insert nps w = (r, w') ->
  keys_unique (db w' ++ txn w').
Proof.
  induction nps as [|np nps IH]; intros w r w' Hk H; simpl in H.
  - by injection H as <- <-.
  - unfold bind in H. destruct (insert_one np w) as [[[]|e] w1] eqn:E1.
    + eapply IH; [|exact H]. by eapply insert_one_keys.
    + injection H as <- <-. by eapply insert_one_keys.
Qed.

Section ImportKeys.

Variable int_ratio85 : nat -> nat -> Z.
Variable env : Env.
Variable task_id : string.

Lemma batch_loop_keys (df : DataFrame) starts :
  forall (ex : gset string) n w res w',
  keys_unique (db w) -> txn w = [] ->
  batch_loop int_ratio85 env task_id df starts ex n w = (res, w') ->
  keys_unique (db w').
Proof.
  induction starts as [|i later IH]; intros ex n w res w' Hk Htxn H.
  - by injection H as <- <-.
  - apply batch_loop_step in H as [(_ & _ & ->) | (_ & H)]; [exact Hk|].
    simpl in H.
    pose proof (foldl_commit_other_keys
                  (other_commits env (i / batch_size)) _ Hk) as Hk1.
    destruct (prepare_batch _ _ ex n) as [[[newp ex'] n']|e].
    2: { by destruct H as [_ ->]. }
    destruct H as (r2 & w2 & E2 & H). rewrite staged_insert_eq in E2.
    apply execute_insert_keys in E2.
    2: { simpl. by rewrite Htxn, app_nil_r. }
    destruct r2 as [[]|e].
    + eapply IH; [| |exact H]; [exact E2|reflexivity].
    + destruct H as [_ ->]. by eapply keys_unique_prefix.
Qed.

Lemma import_db file w res w' :
  import_products_from_csv int_ratio85 env task_id file w = (res, w') ->
  db w' = db w \/
  exists df r wl,
    file = Parsed df /\ "sku" ∈ columns df /\ db w' = db wl /\
    _process_batches int_ratio85 env task_id (preprocessed df)
      (lower_skus (db w)) (started task_id w) = (r, wl).
Proof.
  intros H. apply import_cases in H.
  destruct H as [msg Hf|df Hf Hno|df Hf Hsku Hno|df c wl Hf Hsku Hdtype Hloop
                |df e wl Hf Hsku Hdtype Hloop].
  - by left.
  - by left.
  - by left.
  - right. by exists df, (Return c), wl.
  - right. by exists df, (Raise e), wl.
Qed.

End ImportKeys.

(** X17.  The import keeps the keys of the table apart, whatever the file, the
    cancellation requests and the other writers: after the run, ended or
    failed, ids and SKUs are pairwise different.  When no other writer
    commits beside the run and no two rows had the same SKU up to letter
    case, no two rows have afterwards. *)
Theorem import_keeps_keys (int_ratio85 : nat -> nat -> Z) (env : Env)
    (task_id : string) (file : CsvFile) (w : World) :
  keys_unique (db w) ->
  let w' := snd (import_products_from_csv int_ratio85 env task_id file w) in
  keys_unique (db w') /\
  ((forall k, other_commits env k = []) ->
   skus_unique_nocase (db w) -> skus_unique_nocase (db w')).
Proof.
  intros Hk w'.
  destruct (import_products_from_csv int_ratio85 env task_id file w)
    as [res w1] eqn:E.
  subst w'. simpl.
  assert (Hk1 : keys_unique (db w1)).
  { destruct (import_db _ _ _ _ _ _ _ E)
      as [->|(df & r & wl & _ & _ & -> & Hloop)]; [exact Hk|].
    eapply batch_loop_keys; [| |exact Hloop]; [exact Hk|reflexivity]. }
  split; [exact Hk1|]. intros Hquiet Hnocase.
  destruct (import_db _ _ _ _ _ _ _ E)
    as [->|(df & r & wl & _ & _ & Hdb & Hloop)]; [exact Hnocase|].
  rewrite Hdb in Hk1 |- *.
  apply (batch_loop_db _ _ _ _ Hquiet) in Hloop
    as (new & Hnew & Hall & _); [|reflexivity..].
  simpl in Hnew. rewrite Hnew in Hk1 |- *.
  rewrite Forall_forall in Hall.
  assert (Hlow : lower <$> skus new = skus new).
  { apply fmap_lower_fixed. intros s (p & -> & Hp)%list_elem_of_fmap.
    destruct (Hall p Hp) as (_ & r0 & _ & ->). simpl. apply lower_idem. }
  unfold skus_unique_nocase in *. rewrite skus_app, fmap_app, Hlow.
  apply NoDup_app. split; [exact Hnocase|]. split.
  - intros s Hs (p & -> & Hp)%list_elem_of_fmap.
    destruct (Hall p Hp) as (Hfresh & _). apply Hfresh.
    unfold lower_skus. by apply elem_of_list_to_set.
  - destruct Hk1 as [_ Hskus]. rewrite skus_app in Hskus.
    by apply NoDup_app in Hskus as (_ & _ & Hskus).
Qed.

Lemma import_keeps_keys_witness :
  let w := world_of [mkProduct 1 "Old" "abc" "" true] in
  let w' := snd (import_products_from_csv exact_ratio85 quiet "job-1"
                   scenario w) in
  keys_unique (db w') /\
  ((forall k, other_commits quiet k = []) ->
   skus_unique_nocase (db w) -> skus_unique_nocase (db w')).
Proof.
  apply (import_keeps_keys exact_ratio85 quiet "job-1" scenario
           (world_of [mkProduct 1 "Old" "abc" "" true])).
  split; apply NoDup_singleton.
Defined.

(** ** The job registry: get_task_status and cancel_task *)

Section Registry.

Variable int_ratio85 : nat -> nat -> Z.
Variable env : Env.
Variable task_id : string.

Lemma batch_loop_store (df : DataFrame) starts :
  forall (ex : gset string) n w res w' other,
  other ≠ task_id ->
  batch_loop int_ratio85 env task_id df starts ex n w = (res, w') ->
  progress_store w' !! other = progress_store w !! other.
Proof.
  induction starts as [|i later IH]; intros ex n w res w' other Hne H.
  - by injection H as <- <-.
  - apply batch_loop_step in H as [(_ & _ & ->) | (_ & H)].
    { simpl. by rewrite lookup_insert_ne. }
    simpl in H.
    destruct (prepare_batch _ _ ex n) as [[[newp ex'] n']|e].
    2: { by destruct H as [_ ->]. }
    destruct H as (r2 & w2 & E2 & H). rewrite staged_insert_eq in E2.
    apply execute_insert_inv in E2 as (_ & Hstore & _).
    simpl in Hstore.
    destruct r2 as [[]|e].
    + rewrite (IH _ _ _ _ _ other Hne H). simpl.
      by rewrite lookup_insert_ne, Hstore.
    + destruct H as [_ ->]. by rewrite Hstore.
Qed.

Lemma import_store file w res w' other :
  other ≠ task_id ->
  import_products_from_csv int_ratio85 env task_id file w = (res, w') ->
  progress_store w' !! other = progress_store w !! other.
Proof.
  intros Hne H. apply import_cases in H.
  destruct H as [msg Hf|df Hf Hno|df Hf Hsku Hno|df c wl Hf Hsku Hdtype Hloop
                |df e wl Hf Hsku Hdtype Hloop];
    unfold ended, started; simpl; rewrite ?lookup_insert_ne by done; try done.
  - rewrite (batch_loop_store _ _ _ _ _ _ _ other Hne Hloop). simpl.
    by rewrite !lookup_insert_ne.
  - rewrite (batch_loop_store _ _ _ _ _ _ _ other Hne Hloop). simpl.
    by rewrite !lookup_insert_ne.
Qed.

End Registry.

(** X18.  What polling answers once the import has ended: [SUCCESS] with the
    number of rows imported when it returned, [FAILURE] when it raised.  The
    [total] of the answer is 0 whatever the file held, and a run that was
    cancelled is answered as a success.  The records of the other jobs are
    left as they were. *)
Theorem task_status_after_import (int_ratio85 : nat -> nat -> Z) (env : Env)
    (task_id : string) (file : CsvFile) (w : World) :
  let run := import_products_from_csv int_ratio85 env task_id file w in
  get_task_status task_id (progress_store (snd run))
  = match fst run with
    | Return r => SUCCESS (res_imported r) 0
    | Raise _ => FAILURE true
    end /\
  forall other, other ≠ task_id ->
    get_task_status other (progress_store (snd run))
    = get_task_status other (progress_store w).
Proof.
  intros run. subst run.
  destruct (import_products_from_csv int_ratio85 env task_id file w)
    as [res w'] eqn:E.
  simpl. split.
  - destruct (import_terminal _ _ _ _ _ _ _ E)
      as (final & _ & Hstore & _ & _ & Hfinal).
    unfold get_task_status. rewrite Hstore.
    destruct res as [r|e]; by subst final.
  - intros other Hne. unfold get_task_status.
    by rewrite (import_store _ _ _ _ _ _ _ other Hne E).
Qed.

(** X19.  [cancel_task] raises the flag of its task and of no other, creates no
    record, and changes what polling answers only for a job that is still
    running, and there only the text. *)
Theorem cancel_task_effect (task_id : string) (cancel_flags : gmap string bool)
    (store : gmap string JobRecord) :
  let flags' := fst (cancel_task task_id cancel_flags store) in
  let store' := snd (cancel_task task_id cancel_flags store) in
  flag_of flags' task_id = true /\
  (forall other, other ≠ task_id ->
     flag_of flags' other = flag_of cancel_flags other /\
     store' !! other = store !! other) /\
  get_task_status task_id store'
  = match get_task_status task_id store with
    | PROGRESS percent current total _ =>
        PROGRESS percent current total "Cancelling..."
    | answer => answer
    end.
Proof.
  simpl. unfold flag_of, get_task_status. split; [|split].
  - by rewrite lookup_insert_eq.
  - intros other Hne. by rewrite lookup_insert_ne, lookup_alter_ne.
  - rewrite lookup_alter_eq. destruct (store !! task_id) as [r|]; simpl; [|done].
    destruct (completed r); [|done]. by destruct (error r).
Qed.

Lemma range_step_head (n step : nat) :
  range_step n step = [] \/ exists later, range_step n step = 0%nat :: later.
Proof.
  unfold range_step. destruct ((n + step - 1) / step)%nat as [|k]; [by left|].
  right. simpl. by eexists.
Qed.

(** X20.  A cancellation request that is there when the first batch is due,
    for a frame with a column [sku] of text: the import writes no row, and
    still ends as completed, with 0 rows imported. *)
Theorem cancelled_at_once_writes_nothing (int_ratio85 : nat -> nat -> Z)
    (env : Env) (task_id : string) (df : DataFrame) (w : World) :
  cancel_flag env 0 = true -> "sku" ∈ columns df -> sku_dtype df = Object ->
  exists w',
    import_products_from_csv int_ratio85 env task_id (Parsed df) w
    = (Return (mkResult 0 (length (rows df))), w') /\
    db w' = db w /\
    get_task_status task_id (progress_store w') = SUCCESS 0 0.
Proof.
  intros Hflag Hsku Hdtype.
  assert (Hloop : exists wl,
    _process_batches int_ratio85 env task_id (preprocessed df)
      (lower_skus (db w)) (started task_id w) = (Return 0%nat, wl) /\
    db wl = db w).
  { unfold _process_batches.
    destruct (range_step_head (length (rows (preprocessed df))) batch_size)
      as [->|[later ->]].
    - by eexists.
    - simpl. rewrite Nat.Div0.div_0_l, Hflag. by eexists. }
  destruct Hloop as (wl & Hloop & Hdb).
  destruct (import_products_from_csv int_ratio85 env task_id (Parsed df) w)
    as [res w'] eqn:E.
  pose proof E as Hrun. apply import_cases in Hrun.
  destruct Hrun as [msg [=]|df' [= <-] Hno|df' [= <-] _ Hno
                   |df' c wl' [= <-] _ _ Hloop'|df' e' wl' [= <-] _ _ Hloop'].
  - contradiction.
  - contradiction.
  - rewrite Hloop in Hloop'. injection Hloop' as <- <-.
    eexists. split; [reflexivity|]. split; [exact Hdb|].
    unfold get_task_status, ended. simpl. by rewrite lookup_insert_eq.
  - rewrite Hloop in Hloop'. discriminate.
Qed.

Lemma cancelled_at_once_writes_nothing_witness :
  exists w',
    import_products_from_csv exact_ratio85 (mkEnv (fun _ => true) (fun _ => []))
      "job-1" (Parsed scenario_frame) (world_of [])
    = (Return (mkResult 0 (length (rows scenario_frame))), w') /\
    db w' = db (world_of []) /\
    get_task_status "job-1" (progress_store w') = SUCCESS 0 0.
Proof.
  apply (cancelled_at_once_writes_nothing exact_ratio85
           (mkEnv (fun _ => true) (fun _ => [])) "job-1" scenario_frame
           (world_of [])).
  - reflexivity.
  - simpl. set_solver.
  - reflexivity.
Defined.

(** ** The webhook registry *)

Section WebhookFacts.

Import Webhooks.

Lemma find_first_split {A} (P : A -> bool) (l : list A) (a : A) :
  find P l = Some a ->
  exists l1 l2, l = l1 ++ a :: l2 /\ P a = true /\
                forall x, x ∈ l1 -> P x = false.
Proof.
  induction l as [|x l IH]; [discriminate|]. simpl.
  destruct (P x) eqn:Hx.
  - intros [= ->]. exists [], l. repeat split; auto.
    intros y Hy. by apply elem_of_nil in Hy.
  - intros (l1 & l2 & -> & Ha & Hl1)%IH. exists (x :: l1), l2.
    repeat split; auto. intros y [->|Hy]%elem_of_cons; auto.
Qed.

Lemma update_first_split (webhook_id : Z) (f : Webhook -> Webhook)
    (l1 l2 : list Webhook) (w : Webhook) :
  wh_id w = webhook_id ->
  (forall x, x ∈ l1 -> bool_decide (wh_id x = webhook_id) = false) ->
  update_first webhook_id f (l1 ++ w :: l2) = l1 ++ f w :: l2.
Proof.
  intros Hw. induction l1 as [|x l1 IH]; intros Hl1; simpl.
  - by rewrite bool_decide_eq_true_2.
  - rewrite Hl1 by (by left). f_equal. apply IH.
    intros y Hy. apply Hl1. by right.
Qed.

Lemma update_first_ids (webhook_id : Z) (f : Webhook -> Webhook)
    (l : list Webhook) :
  (forall w, wh_id (f w) = wh_id w) ->
  wh_id <$> update_first webhook_id f l = wh_id <$> l.
Proof.
  intros Hf. induction l as [|x l IH]; [reflexivity|].
  cbn [update_first]. case_bool_decide; rewrite !fmap_cons.
  - by rewrite Hf.
  - by rewrite IH.
Qed.

Lemma ids_filter (P : Webhook -> Prop) `{!forall w, Decision (P w)}
    (l : list Webhook) :
  wh_id <$> filter P l `sublist_of` wh_id <$> l.
Proof. apply fmap_sublist, sublist_filter. Qed.

(** The invariant of the registry along the requests served. *)
Lemma serve_invariant (reqs : list WebhookRequest) :
  let st := foldl serve initial reqs in
  NoDup (wh_id <$> webhooks st) /\
  Forall (fun i => (0 < i <= webhook_counter st)%Z) (wh_id <$> webhooks st) /\
  webhook_counter st = Z.of_nat (posts reqs).
Proof.
  induction reqs as [|r reqs IH] using rev_ind.
  - simpl. repeat split; constructor.
  - rewrite foldl_app. simpl. unfold posts in *. rewrite filter_app, length_app.
    set (st := foldl serve initial reqs) in *.
    destruct IH as (Hnd & Hall & Hc).
    destruct r as [d|webhook_id d|webhook_id]; simpl.
    + rewrite fmap_app. simpl. split; [|split].
      * apply NoDup_app. split; [exact Hnd|]. split; [|apply NoDup_singleton].
        intros i Hi ->%list_elem_of_singleton.
        rewrite Forall_forall in Hall. apply Hall in Hi. lia.
      * apply Forall_app. split.
        -- eapply Forall_impl; [exact Hall|]. simpl. lia.
        -- apply Forall_singleton. lia.
      * rewrite Hc. simpl. lia.
    + unfold update_webhook.
      destruct (find _ (webhooks st)); simpl.
      * rewrite update_first_ids by done. rewrite Hc.
        repeat split; auto; try lia. by rewrite <- Hc.
      * rewrite Hc. repeat split; auto; try lia. by rewrite <- Hc.
    + rewrite Hc. split; [|split].
      * eapply sublist_NoDup; [exact Hnd|apply ids_filter].
      * rewrite <- Hc. rewrite Forall_forall in Hall |- *. intros i Hi.
        apply Hall. eapply elem_of_sublist; [exact Hi|apply ids_filter].
      * simpl. lia.
Qed.

End WebhookFacts.

(** X21.  Whatever requests the registry has served since the module was loaded,
    its ids are pairwise different, and the webhook created next gets the
    number of webhooks created so far plus one as its id: an id is not
    given a second time, also after its webhook was deleted. *)
Theorem webhook_ids_are_never_reused (reqs : list WebhookRequest)
    (webhook_data : Webhooks.WebhookCreate) :
  let st := foldl serve Webhooks.initial reqs in
  let created := fst (Webhooks.create_webhook webhook_data st) in
  Webhooks.well_formed st /\
  Webhooks.wh_id created = Z.of_nat (S (posts reqs)) /\
  Webhooks.wh_id created ∉ (Webhooks.wh_id <$> Webhooks.webhooks st).
Proof.
  intros st created.
  destruct (serve_invariant reqs) as (Hnd & Hall & Hc). fold st in Hnd, Hall, Hc.
  split; [|split].
  - split; [exact Hnd|]. by apply Forall_fmap in Hall.
  - simpl. rewrite Hc. lia.
  - simpl. intros Hin. rewrite Forall_forall in Hall. apply Hall in Hin. lia.
Qed.

(** X22.  [update_webhook] answers 404 and changes nothing when no webhook has
    the id; otherwise it changes the first webhook with the id where it sits in
    the list, in the fields that were sent, and keeps its id and its
    [created_at]; the other webhooks and the counter are as before. *)
Theorem update_webhook_outcome (webhook_id : Z)
    (webhook_data : Webhooks.WebhookUpdate) (st : Webhooks.State) :
  match Webhooks.update_webhook webhook_id webhook_data st with
  | (Webhooks.HTTPException code _, st') =>
      code = 404%Z /\ st' = st /\
      forall w, w ∈ Webhooks.webhooks st -> Webhooks.wh_id w ≠ webhook_id
  | (Webhooks.Ok w', st') =>
      exists l1 w l2,
        Webhooks.webhooks st = l1 ++ w :: l2 /\
        Webhooks.webhooks st' = l1 ++ w' :: l2 /\
        Webhooks.webhook_counter st' = Webhooks.webhook_counter st /\
        (forall x, x ∈ l1 -> Webhooks.wh_id x ≠ webhook_id) /\
        Webhooks.wh_id w = webhook_id /\ Webhooks.wh_id w' = webhook_id /\
        Webhooks.wh_created_at w' = Webhooks.wh_created_at w /\
        Webhooks.wh_url w'
          = default (Webhooks.wh_url w) (Webhooks.wu_url webhook_data) /\
        Webhooks.wh_event_types w'
          = default (Webhooks.wh_event_types w)
                    (Webhooks.wu_event_types webhook_data) /\
        Webhooks.wh_enabled w'
          = default (Webhooks.wh_enabled w) (Webhooks.wu_enabled webhook_data)
  end.
Proof.
  unfold Webhooks.update_webhook.
  destruct (find _ (Webhooks.webhooks st)) as [w|] eqn:Hfind.
  - apply find_first_split in Hfind as (l1 & l2 & Hl & Hw & Hl1).
    apply bool_decide_eq_true in Hw.
    exists l1, w, l2. simpl. rewrite Hl.
    rewrite update_first_split by assumption.
    repeat split; auto.
    intros x Hx. specialize (Hl1 x Hx). by apply bool_decide_eq_false in Hl1.
  - repeat split. intros w Hw Heq.
    pose proof (find_none _ _ Hfind w (proj1 (list_elem_of_In _ _) Hw)) as Hf.
    simpl in Hf. by rewrite bool_decide_eq_true_2 in Hf.
Qed.

(** X23.  Deleting never fails: an id no webhook has leaves the list as it is.
    Deleting the webhook that [create_webhook] has just returned gives the
    list back as it was, while the counter stays advanced. *)
Theorem delete_webhook_outcome (webhook_data : Webhooks.WebhookCreate)
    (st : Webhooks.State) :
  Webhooks.well_formed st ->
  (forall webhook_id,
     webhook_id ∉ (Webhooks.wh_id <$> Webhooks.webhooks st) ->
     snd (Webhooks.delete_webhook webhook_id st) = st) /\
  let created := Webhooks.create_webhook webhook_data st in
  snd (Webhooks.delete_webhook (Webhooks.wh_id (fst created)) (snd created))
  = Webhooks.mkState (Webhooks.webhooks st) (Webhooks.webhook_counter st + 1).
Proof.
  intros [Hnd Hall].
  assert (Hkeep : forall webhook_id,
    webhook_id ∉ (Webhooks.wh_id <$> Webhooks.webhooks st) ->
    filter (fun w => Webhooks.wh_id w ≠ webhook_id) (Webhooks.webhooks st)
    = Webhooks.webhooks st).
  { intros webhook_id Hout. apply filter_all. intros w Hw Heq. apply Hout.
    rewrite <- Heq. by apply list_elem_of_fmap_2. }
  split.
  - intros webhook_id Hout. unfold Webhooks.delete_webhook. simpl.
    rewrite Hkeep by exact Hout. by destruct st.
  - simpl. unfold Webhooks.delete_webhook. simpl. f_equal.
    rewrite filter_app, Hkeep.
    + rewrite filter_cons_False by (intros H; by apply H). simpl.
      by rewrite app_nil_r.
    + intros (w & Heq & Hw)%list_elem_of_fmap.
      rewrite Forall_forall in Hall. apply Hall in Hw. lia.
Qed.

Lemma delete_webhook_outcome_witness :
  let d := Webhooks.mkCreate "http://localhost/hook" ["product.created"] true in
  let st := snd (Webhooks.create_webhook d Webhooks.initial) in
  (forall webhook_id,
     webhook_id ∉ (Webhooks.wh_id <$> Webhooks.webhooks st) ->
     snd (Webhooks.delete_webhook webhook_id st) = st) /\
  let created := Webhooks.create_webhook d st in
  snd (Webhooks.delete_webhook (Webhooks.wh_id (fst created)) (snd created))
  = Webhooks.mkState (Webhooks.webhooks st) (Webhooks.webhook_counter st + 1).
Proof.
  apply (delete_webhook_outcome
           (Webhooks.mkCreate "http://localhost/hook" ["product.created"] true)
           (snd (Webhooks.create_webhook
                   (Webhooks.mkCreate "http://localhost/hook"
                      ["product.created"] true)
                   Webhooks.initial))).
  split.
  - simpl. apply NoDup_singleton.
  - simpl. apply Forall_singleton. simpl. lia.
Defined.

(** ** _preprocess_dataframe *)

Lemma drop_duplicates_last_sublist (l : list Row) :
  drop_duplicates_last l `sublist_of` l.
Proof.
  induction l as [|x l IH]; simpl; [constructor|].
  case_bool_decide; [by apply sublist_cons | by apply sublist_skip].
Qed.

Lemma drop_duplicates_last_skus (l : list Row) (s : string) :
  s ∈ (row_sku <$> drop_duplicates_last l) <-> s ∈ (row_sku <$> l).
Proof.
  induction l as [|x l IH]; simpl; [done|].
  case_bool_decide as Hdup.
  - rewrite IH, elem_of_cons. split; [auto|]. by intros [->|H].
  - by rewrite fmap_cons, !elem_of_cons, IH.
Qed.

Lemma drop_duplicates_last_NoDup (l : list Row) :
  NoDup (row_sku <$> drop_duplicates_last l).
Proof.
  induction l as [|x l IH]; simpl; [constructor|].
  case_bool_decide as Hdup; [exact IH|].
  rewrite fmap_cons. apply NoDup_cons. split; [|exact IH].
  by rewrite drop_duplicates_last_skus.
Qed.

Lemma drop_duplicates_last_keeps (l1 : list Row) (r : Row) (l2 : list Row) :
  row_sku r ∉ (row_sku <$> l2) -> r ∈ drop_duplicates_last (l1 ++ r :: l2).
Proof.
  intros Hlast. induction l1 as [|x l1 IH]; simpl.
  - rewrite bool_decide_eq_false_2 by exact Hlast. by left.
  - case_bool_decide; [exact IH|by right].
Qed.

(** X16.  [_preprocess_dataframe] raises the [KeyError] of [drop_duplicates],
    whose argument is the index of the missing label, exactly when the frame
    has no column [sku], and [AttributeError] exactly when it has the column
    and the column is not of text.  Otherwise it keeps, in the order of the
    file, one row for every text in the column [sku], compared as it stands
    in the file: the last row that has it.  Of the rows kept it rewrites the
    SKU, trimmed and lowercased, and nothing else. *)
Theorem preprocess_keeps_last_rows (df : DataFrame) :
  match _preprocess_dataframe df with
  | Raise e =>
      (e = KeyErrorIndex ["sku"] /\ ("sku" ∉ columns df)) \/
      ((exists msg, e = AttributeError msg) /\
       "sku" ∈ columns df /\ sku_dtype df ≠ Object)
  | Return df' =>
      "sku" ∈ columns df /\ sku_dtype df = Object /\
      columns df' = columns df /\
      exists kept,
        rows df' = normalize_sku <$> kept /\
        kept `sublist_of` rows df /\
        NoDup (row_sku <$> kept) /\
        (forall r, r ∈ rows df -> row_sku r ∈ (row_sku <$> kept)) /\
        (forall l1 r l2, rows df = l1 ++ r :: l2 ->
                         row_sku r ∉ (row_sku <$> l2) -> r ∈ kept)
  end.
Proof.
  unfold _preprocess_dataframe. case_bool_decide as Hsku; [|by left].
  destruct (sku_dtype df) eqn:Hdtype;
    try (right; split; [by eexists|split; [exact Hsku|discriminate]]).
  split; [exact Hsku|]. split; [reflexivity|]. split; [reflexivity|].
  exists (drop_duplicates_last (rows df)). simpl.
  split; [reflexivity|]. split; [apply drop_duplicates_last_sublist|].
  split; [apply drop_duplicates_last_NoDup|]. split.
  - intros r Hr. apply drop_duplicates_last_skus. by apply list_elem_of_fmap_2.
  - intros l1 r l2 -> Hlast. by apply drop_duplicates_last_keeps.
Qed.

(** ** get_status *)

Lemma filter_active_split (t : list Product) :
  (length (filter (fun p => p_active p = true) t)
   + length (filter (fun p => p_active p = false) t) = length t)%nat.
Proof.
  induction t as [|p t IH]; [reflexivity|].
  destruct (p_active p) eqn:Hp.
  - rewrite filter_cons_True, filter_cons_False by (by rewrite Hp). simpl. lia.
  - rewrite filter_cons_False, filter_cons_True by (by rewrite Hp). simpl. lia.
Qed.

Lemma filtered_by_flag (w : World) :
  filtered None (Some "true") w
  = filter (fun p => p_active p = true) (db w ++ txn w) /\
  filtered None (Some "false") w
  = filter (fun p => p_active p = false) (db w ++ txn w).
Proof.
  unfold filtered.
  split; apply list_filter_iff; intros p; simpl; by destruct (p_active p).
Qed.

(** X15.  The counts of [get_status] are the counts of the listing: [total] is
    the number of rows, [active] and [inactive] are the totals the listing
    reports under the filters [active=true] and [active=false]; none is negative
    and the last two add up to the first. *)
Theorem status_counts_agree_with_listing (per_page : Z) (w : World) :
  (0 < per_page)%Z ->
  let counts := get_status w in
  let total_of active :=
    match get_products_paginated 1 per_page None active w with
    | PageOk pg => Some (pg_total pg)
    | ZeroDivisionError => None
    end in
  total_of None = Some (total_products counts) /\
  total_of (Some "true") = Some (active_products counts) /\
  total_of (Some "false") = Some (inactive_products counts) /\
  (0 <= active_products counts)%Z /\ (0 <= inactive_products counts)%Z /\
  total_products counts
  = (active_products counts + inactive_products counts)%Z.
Proof.
  intros Hper counts total_of. subst counts total_of.
  unfold get_products_paginated. rewrite bool_decide_eq_false_2 by lia.
  destruct (filtered_by_flag w) as [-> ->].
  pose proof (filter_active_split (db w ++ txn w)) as Hsplit.
  unfold get_status. simpl.
  assert (filtered None None w = db w ++ txn w) as ->.
  { unfold filtered. by apply filter_all. }
  repeat split; try lia. f_equal. lia.
Qed.

Lemma status_counts_agree_with_listing_witness :
  let w := world_of [mkProduct 1 "Red Shoe" "rs-1" "nice" true;
                     mkProduct 2 "Blue" "bl-2" "red laces" false;
                     mkProduct 5 "Hat" "h-1" "" true] in
  let counts := get_status w in
  let total_of active :=
    match get_products_paginated 1 2 None active w with
    | PageOk pg => Some (pg_total pg)
    | ZeroDivisionError => None
    end in
  total_of None = Some (total_products counts) /\
  total_of (Some "true") = Some (active_products counts) /\
  total_of (Some "false") = Some (inactive_products counts) /\
  (0 <= active_products counts)%Z /\ (0 <= inactive_products counts)%Z /\
  total_products counts
  = (active_products counts + inactive_products counts)%Z.
Proof.
  apply (status_counts_agree_with_listing 2
           (world_of [mkProduct 1 "Red Shoe" "rs-1" "nice" true;
                      mkProduct 2 "Blue" "bl-2" "red laces" false;
                      mkProduct 5 "Hat" "h-1" "" true])).
  lia.
Defined.

(** ** The import only inserts *)

(** X24.  No run updates or deletes a row that was in the table: the table
    before the run is a prefix of the table after it.  When no other writer
    commits beside the run, what follows the prefix is what the run inserted:
    each such row comes from a row of the file, under its trimmed and
    lowercased SKU, and no row of the table before the run has that SKU
    under [LOWER]; the count returned is the number of rows inserted; and
    with a column [sku] of text and a column [name] the call returns. *)
Theorem import_only_inserts (int_ratio85 : nat -> nat -> Z) (env : Env)
    (task_id : string) (file : CsvFile) (w : World)
    (res : Result ImportResult) (w' : World) :
  import_products_from_csv int_ratio85 env task_id file w = (res, w') ->
  db w `prefix_of` db w' /\
  ((forall k, other_commits env k = []) ->
   exists new,
     db w' = db w ++ new /\
     (forall p, p ∈ new ->
        (p_sku p ∉ lower_skus (db w)) /\
        exists df r, file = Parsed df /\ r ∈ rows df /\
                     p_sku p = lower (strip (row_sku r)) /\
                     p_name p = row_name r) /\
     (forall x, res = Return x -> res_imported x = length new) /\
     (forall df, file = Parsed df -> "sku" ∈ columns df ->
                 sku_dtype df = Object -> "name" ∈ columns df ->
                 exists x, res = Return x)).
Proof.
  intros H. split.
  { by destruct (import_terminal _ _ _ _ _ _ _ H) as (_ & _ & _ & _ & Hp & _). }
  intros Hquiet. apply import_cases in H.
  destruct H as [msg Hf|df Hf Hno|df Hf Hsku Hno|df c wl Hf Hsku Hdtype Hloop
                |df e wl Hf Hsku Hdtype Hloop].
  - exists []. simpl. rewrite app_nil_r.
    split; [reflexivity|]. split; [|split].
    + by intros p Hp%elem_of_nil.
    + discriminate.
    + intros df Hdf. by rewrite Hf in Hdf.
  - exists []. simpl. rewrite app_nil_r.
    split; [reflexivity|]. split; [|split].
    + by intros p Hp%elem_of_nil.
    + discriminate.
    + intros df' Hdf. rewrite Hf in Hdf. by injection Hdf as <-.
  - exists []. simpl. rewrite app_nil_r.
    split; [reflexivity|]. split; [|split].
    + by intros p Hp%elem_of_nil.
    + discriminate.
    + intros df' Hdf. rewrite Hf in Hdf. by injection Hdf as <-.
  - apply batch_loop_db in Hloop as (new & Hdb & Hall & Hc & _);
      [|done..].
    exists new. simpl in *. rewrite Forall_forall in Hall.
    split; [exact Hdb|]. split; [|split].
    + intros p Hp. destruct (Hall p Hp) as (Hfresh & r & Hr & Hpr).
      split; [exact Hfresh|].
      apply elem_of_preprocessed in Hr as (r0 & Hr0 & ->).
      exists df, r0. rewrite Hpr. simpl.
      by rewrite lower_idem.
    + intros x [= <-]. simpl. lia.
    + intros _ _ _ _ _. by eexists.
  - apply batch_loop_db in Hloop as (new & Hdb & Hall & Hraise);
      [|done..].
    exists new. simpl in *. rewrite Forall_forall in Hall.
    split; [exact Hdb|]. split; [|split].
    + intros p Hp. destruct (Hall p Hp) as (Hfresh & r & Hr & Hpr).
      split; [exact Hfresh|].
      apply elem_of_preprocessed in Hr as (r0 & Hr0 & ->).
      exists df, r0. rewrite Hpr. simpl.
      by rewrite lower_idem.
    + discriminate.
    + intros df' Hdf Hs _ Hn. rewrite Hf in Hdf. injection Hdf as <-.
      destruct Hraise as [[_ Hno]|[_ Hno]]; contradiction.
Qed.

Lemma import_only_inserts_witness :
  db (world_of stored_with_blanks) `prefix_of` db (snd run_over_blanks) /\
  exists new,
    db (snd run_over_blanks) = db (world_of stored_with_blanks) ++ new /\
    (forall p, p ∈ new ->
       (p_sku p ∉ lower_skus (db (world_of stored_with_blanks))) /\
       exists df r,
         Parsed (mkFrame ["name"; "sku"; "description"]
                   [mkRow "New" "abc" "d"] Object)
           = Parsed df /\ r ∈ rows df /\
         p_sku p = lower (strip (row_sku r)) /\
         p_name p = row_name r) /\
    (forall x, fst run_over_blanks = Return x ->
               res_imported x = length new) /\
    (forall df,
       Parsed (mkFrame ["name"; "sku"; "description"] [mkRow "New" "abc" "d"]
                 Object)
         = Parsed df ->
       "sku" ∈ columns df -> sku_dtype df = Object -> "name" ∈ columns df ->
       exists x, fst run_over_blanks = Return x).
Proof.
  destruct (import_only_inserts exact_ratio85 quiet "job"
              (Parsed (mkFrame ["name"; "sku"; "description"]
                         [mkRow "New" "abc" "d"] Object))
              (world_of stored_with_blanks)
              (fst run_over_blanks) (snd run_over_blanks)
              (surjective_pairing _)) as [Hprefix Hquiet].
  split; [exact Hprefix|]. apply Hquiet. intros k. reflexivity.
Defined.
